(** * Chart.js hooks (src/src/hooks.ts): a shallow embedding.

    JavaScript values live in a heap of objects, so that the in-place
    assignments of the [colors] and [datasets] hooks and the references
    captured by the hook closures are visible.  A hook closure is kept
    defunctionalised: the constructor names the registering method and its
    fields are the variables the closure captures. *)

From Stdlib Require Import String Ascii List ZArith Arith Lia Bool.
Import ListNotations.
Open Scope string_scope.
Open Scope nat_scope.
Open Scope list_scope.
Set Warnings "-notation-for-abbreviation -register-all".

(* ------------------------------------------------------------------ *)
(** ** JavaScript values *)

Definition loc := nat.

(** Primitive values.  Numbers are restricted to integers. *)
Inductive prim :=
| PUndef
| PNull
| PBool (b : bool)
| PNum (z : Z)
| PStr (s : string).

Inductive val :=
| VP (p : prim)
| VRef (l : loc).

Notation undef := (VP PUndef).
Notation vbool b := (VP (PBool b)).
Notation vnum z := (VP (PNum z)).
Notation vstr s := (VP (PStr s)).

(** Property lists: own enumerable properties in insertion order. *)
Definition fields (A : Type) := list (string * A).

Fixpoint get_field {A} (fs : fields A) (k : string) : option A :=
  match fs with
  | [] => None
  | (k', v) :: fs' => if String.eqb k k' then Some v else get_field fs' k
  end.

(** [o[k] = v]: overwrite the existing property, or append a new one. *)
Fixpoint set_field {A} (fs : fields A) (k : string) (v : A) : fields A :=
  match fs with
  | [] => [(k, v)]
  | (k', v') :: fs' =>
      if String.eqb k k' then (k', v) :: fs' else (k', v') :: set_field fs' k v
  end.

(** [{...fs, ...gs}]: copy the properties of [gs] onto those of [fs]. *)
Definition assign {A} (fs gs : fields A) : fields A :=
  fold_left (fun acc kv => set_field acc (fst kv) (snd kv)) gs fs.

(* ------------------------------------------------------------------ *)
(** ** JSON trees and the merge engine *)

(** A tree of values: the shape of a configuration read out of the heap
    ([tree prim]) or of an object literal in the source ([tree val]). *)
Inductive tree (A : Type) :=
| TLeaf (a : A)
| TArr (ts : list (tree A))
| TObj (fs : fields (tree A)).

Arguments TLeaf {A} a.
Arguments TArr {A} ts.
Arguments TObj {A} fs.

Notation json := (tree prim).

Section TreeInd.
Variable A : Type.
Variable P : tree A -> Prop.
Hypothesis HLeaf : forall a, P (TLeaf a).
Hypothesis HArr : forall ts, Forall P ts -> P (TArr ts).
Hypothesis HObj : forall fs, Forall (fun kv => P (snd kv)) fs -> P (TObj fs).

Fixpoint tree_ind' (t : tree A) : P t :=
  match t with
  | TLeaf a => HLeaf a
  | TArr ts =>
      HArr ts ((fix go (ts : list (tree A)) : Forall P ts :=
                  match ts with
                  | [] => Forall_nil _
                  | t :: ts' => Forall_cons _ (tree_ind' t) (go ts')
                  end) ts)
  | TObj fs =>
      HObj fs ((fix go (fs : fields (tree A)) : Forall (fun kv => P (snd kv)) fs :=
                  match fs with
                  | [] => Forall_nil _
                  | kv :: fs' => Forall_cons _ (tree_ind' (snd kv)) (go fs')
                  end) fs)
  end.
End TreeInd.

(** Modelled from the spec: [mergeOptions], imported from
    [@chartisan/chartisan] and not part of src/ (spec section 4.2).  For each
    key of the fragment, two mappings are merged recursively; any other value
    of the fragment (scalar, array, mismatch) replaces the base's value
    wholesale; keys only in the base are kept.  The result is a new value. *)
Fixpoint mergeOptions (base frag : json) {struct frag} : json :=
  match base, frag with
  | TObj bs, TObj fs =>
      TObj ((fix go (acc : fields json) (fs : fields json) : fields json :=
               match fs with
               | [] => acc
               | (k, fv) :: fs' =>
                   go (set_field acc k
                         (match get_field acc k with
                          | Some bv => mergeOptions bv fv
                          | None => fv
                          end)) fs'
               end) bs fs)
  | _, _ => frag
  end.

(** Lookup along a path of keys. *)
Fixpoint tpath (p : list string) (t : json) : option json :=
  match p with
  | [] => Some t
  | k :: p' =>
      match t with
      | TObj fs => match get_field fs k with Some t' => tpath p' t' | None => None end
      | _ => None
      end
  end.

(* ------------------------------------------------------------------ *)
(** ** The heap *)

(** An object: its own properties and, for an array, its elements. *)
Record obj := mkobj { props : fields val; elems : option (list val) }.

Definition plain (fs : fields val) : obj := mkobj fs None.
Definition array (es : list val) : obj := mkobj [] (Some es).

Definition heap := list obj.

Definition alloc (h : heap) (o : obj) : heap * val := (app h [o], VRef (List.length h)).

Fixpoint replace_nth (h : heap) (l : loc) (o : obj) : heap :=
  match h, l with
  | [], _ => []
  | _ :: h', 0 => o :: h'
  | o' :: h', S l' => o' :: replace_nth h' l' o
  end.

(** Evaluation that may throw a [TypeError] ([None]). *)
Definition obind {A B} (m : option A) (k : A -> option B) : option B :=
  match m with Some a => k a | None => None end.

Notation "'let?' x := m 'in' k" := (obind m (fun x => k))
  (at level 200, x name, m at level 100, k at level 200).
Notation "'let?' ' p := m 'in' k" := (obind m (fun x => match x with p => k end))
  (at level 200, p pattern, m at level 100, k at level 200).

Definition truthy (v : val) : bool :=
  match v with
  | VP PUndef | VP PNull => false
  | VP (PBool b) => b
  | VP (PNum z) => negb (Z.eqb z 0)
  | VP (PStr s) => negb (String.eqb s "")
  | VRef _ => true
  end.

(** A default parameter [x = d]: used when the argument is [undefined]. *)
Definition default (v d : val) : val :=
  match v with VP PUndef => d | _ => v end.

Fixpoint digits (fuel n : nat) (acc : string) : string :=
  match fuel with
  | 0 => acc
  | S f =>
      let acc' := String (ascii_of_nat (48 + n mod 10)) acc in
      if n <? 10 then acc' else digits f (n / 10) acc'
  end.

Definition string_of_nat (n : nat) : string := digits (S n) n "".

Definition string_of_Z (z : Z) : string :=
  if (z <? 0)%Z then String.append "-" (string_of_nat (Z.to_nat (- z))) else string_of_nat (Z.to_nat z).

(** Index-keyed properties [0, 1, ...] of a list of elements. *)
Definition indexed {A} (xs : list A) : fields A :=
  combine (map string_of_nat (seq 0 (List.length xs))) xs.

(** [v.k] for a non-index key [k]; [None] when [v] is [undefined] or [null]. *)
Definition get_prop (h : heap) (v : val) (k : string) : option val :=
  match v with
  | VP PUndef | VP PNull => None
  | VP (PStr s) =>
      Some (if String.eqb k "length" then vnum (Z.of_nat (String.length s)) else undef)
  | VP _ => Some undef
  | VRef l =>
      match nth_error h l with
      | None => None
      | Some o =>
          match elems o, String.eqb k "length" with
          | Some es, true => Some (vnum (Z.of_nat (List.length es)))
          | _, _ => Some (match get_field (props o) k with Some x => x | None => undef end)
          end
      end
  end.

(** [v[n]] for a number [n]. *)
Definition get_idx (h : heap) (v : val) (n : Z) : option val :=
  match v with
  | VP PUndef | VP PNull => None
  | VP (PStr s) =>
      Some (if (n <? 0)%Z then undef
            else match String.get (Z.to_nat n) s with
                 | Some c => vstr (String c EmptyString)
                 | None => undef
                 end)
  | VP _ => Some undef
  | VRef l =>
      match nth_error h l with
      | None => None
      | Some o =>
          let by_key := match get_field (props o) (string_of_Z n) with
                        | Some x => x | None => undef end in
          match elems o with
          | Some es =>
              Some (if ((0 <=? n) && (n <? Z.of_nat (List.length es)))%Z
                    then nth (Z.to_nat n) es undef else by_key)
          | None => Some by_key
          end
      end
  end.

(** [v[index % v.length]]; a length of [0] or a non-number length gives
    the index [NaN].  (Coercion of a string [length] is not modelled.) *)
Definition cyc_at (h : heap) (v : val) (index : nat) : option val :=
  let? len := get_prop h v "length" in
  match len with
  | VP (PNum n) =>
      if Z.eqb n 0 then get_prop h v "NaN" else get_idx h v (Z.rem (Z.of_nat index) n)
  | _ => get_prop h v "NaN"
  end.

(** [o.k = x], in strict mode: assigning to a primitive throws. *)
Definition set_prop (h : heap) (v : val) (k : string) (x : val) : option heap :=
  match v with
  | VP _ => None
  | VRef l =>
      match nth_error h l with
      | None => None
      | Some o => Some (replace_nth h l (mkobj (set_field (props o) k x) (elems o)))
      end
  end.

(** The properties copied by a spread [{...v}]. *)
Definition spread_fields (h : heap) (v : val) : fields val :=
  match v with
  | VP (PStr s) => indexed (map (fun c => vstr (String c EmptyString)) (list_ascii_of_string s))
  | VP _ => []
  | VRef l =>
      match nth_error h l with
      | None => []
      | Some o =>
          match elems o with
          | Some es => indexed es ++ props o
          | None => props o
          end
      end
  end.

Definition array_elems (h : heap) (v : val) : option (list val) :=
  match v with
  | VRef l => match nth_error h l with Some o => elems o | None => None end
  | VP _ => None
  end.

(** [Array.isArray(v)] *)
Definition is_array (h : heap) (v : val) : bool :=
  match array_elems h v with Some _ => true | None => false end.

(** The callbacks of [es.map((e, index) => ...)], from index [i] on. *)
Fixpoint map_from (f : heap -> val -> nat -> option (heap * val))
    (h : heap) (es : list val) (i : nat) : option (heap * list val) :=
  match es with
  | [] => Some (h, [])
  | e :: es' =>
      let? '(h1, v) := f h e i in
      let? '(h2, vs) := map_from f h1 es' (S i) in
      Some (h2, v :: vs)
  end.

(** [v.map(f)]: the result array is created first, then filled.  A value
    that is not an array has no [map] method and the call throws. *)
Definition js_map (h : heap) (v : val) (f : heap -> val -> nat -> option (heap * val))
    : option (heap * val) :=
  let? es := array_elems h v in
  let '(h1, a) := alloc h (array []) in
  let? '(h2, vs) := map_from f h1 es 0 in
  let? h3 := match a with
             | VRef la => Some (replace_nth h2 la (array vs))
             | VP _ => None
             end in
  Some (h3, a).

(** [chart.data?.datasets] *)
Definition opt_datasets (h : heap) (chart : val) : option val :=
  let? data := get_prop h chart "data" in
  match data with
  | VP PUndef | VP PNull => Some undef
  | _ => get_prop h data "datasets"
  end.

(** Allocation of a tree of object and array literals, in evaluation order:
    the property values from left to right, then the enclosing literal. *)
Fixpoint alloc_tree {A} (leaf : A -> val) (h : heap) (t : tree A) : heap * val :=
  match t with
  | TLeaf a => (h, leaf a)
  | TArr ts =>
      let '(h1, vs) :=
        (fix go (h : heap) (ts : list (tree A)) : heap * list val :=
           match ts with
           | [] => (h, [])
           | t :: ts' =>
               let '(h1, v) := alloc_tree leaf h t in
               let '(h2, vs) := go h1 ts' in
               (h2, v :: vs)
           end) h ts in
      alloc h1 (array vs)
  | TObj fs =>
      let '(h1, kvs) :=
        (fix go (h : heap) (fs : fields (tree A)) : heap * fields val :=
           match fs with
           | [] => (h, [])
           | (k, t) :: fs' =>
               let '(h1, v) := alloc_tree leaf h t in
               let '(h2, kvs) := go h1 fs' in
               (h2, (k, v) :: kvs)
           end) h fs in
      alloc h1 (plain kvs)
  end.

(** A literal of the source: its leaves are the values of variables. *)
Definition lit := tree val.
Definition new_lit (h : heap) (e : lit) : heap * val := alloc_tree (fun v => v) h e.

(** The configuration tree reachable from a value, following at most [n]
    references (a reference cycle is cut there). *)
Fixpoint read (n : nat) (h : heap) (v : val) : json :=
  match v with
  | VP p => TLeaf p
  | VRef l =>
      match n with
      | 0 => TLeaf PUndef
      | S n' =>
          match nth_error h l with
          | None => TLeaf PUndef
          | Some o =>
              match elems o with
              | Some es => TArr (map (read n' h) es)
              | None => TObj (map (fun kv => (fst kv, read n' h (snd kv))) (props o))
              end
          end
      end
  end.

(** The configuration reachable from [v]: an acyclic heap has no path of
    references longer than its size. *)
Definition config (h : heap) (v : val) : json := read (List.length h) h v.

(** Modelled from the spec: [mergeOptions] on the heap (spec sections 4.2
    and 5): the base and the fragment are read, merged, and the result is
    built as a new object; no existing object is modified. *)
Definition mergeOptionsH (h : heap) (base frag : val) : heap * val :=
  alloc_tree VP h (mergeOptions (config h base) (config h frag)).

(** [mergeOptions(chart, { ... })] with a fragment literal. *)
Definition merge_lit (h : heap) (chart : val) (e : lit) : heap * val :=
  let '(h1, frag) := new_lit h e in mergeOptionsH h1 chart frag.

(* ------------------------------------------------------------------ *)
(** ** Hooks *)

(** The closures pushed on [this.hooks], with the variables they capture. *)
Inductive hook :=
| HColors (colors : val)
| HResponsive (maintainAspectRatio : val)
| HLegend (legend : val)
| HDisplayAxes (display strict : val)
| HPadding (padding : val)
| HDatasets (t : val) (general : val)
| HTitle (title : val)
| HBeginAtZero (beginAtZero : val).

(** The hook of [colors(colors)] (hooks.ts, lines 42-52). *)
Definition colors_hook (colors : val) (h : heap) (chart : val) : option (heap * val) :=
  let? ds := opt_datasets h chart in
  if truthy ds then
    let? data := get_prop h chart "data" in
    let? ds := get_prop h data "datasets" in
    let? '(h1, arr) :=
      js_map h ds (fun h dataset index =>
        let? border := cyc_at h colors index in
        let? background := cyc_at h colors index in
        Some (alloc h (plain (set_field (set_field (assign [] (spread_fields h dataset))
                                "borderColor" border) "backgroundColor" background)))) in
    let? h2 := set_prop h1 data "datasets" arr in
    Some (h2, chart)
  else Some (h, chart).

(** The hook of [datasets(types, general)] (hooks.ts, lines 164-175). *)
Definition datasets_hook (t general : val) (h : heap) (chart : val) : option (heap * val) :=
  let? h1 := set_prop h chart "type" general in
  let? _ := opt_datasets h1 chart in
  let? ds := opt_datasets h1 chart in
  if truthy ds then
    let? data := get_prop h1 chart "data" in
    let? ds := get_prop h1 data "datasets" in
    let? '(h2, arr) :=
      js_map h1 ds (fun h dataset index =>
        let? frag := cyc_at h t index in
        Some (alloc h (plain (assign (assign [] (spread_fields h dataset))
                                     (spread_fields h frag))))) in
    let? h3 := set_prop h2 data "datasets" arr in
    Some (h3, chart)
  else Some (h1, chart).

Definition run_hook (k : hook) (h : heap) (chart : val) : option (heap * val) :=
  match k with
  | HColors colors => colors_hook colors h chart
  | HResponsive m =>
      Some (merge_lit h chart (TObj [("options", TObj [("maintainAspectRatio", TLeaf m)])]))
  | HLegend legend =>
      Some (merge_lit h chart (TObj [("options", TObj [("legend", TLeaf legend)])]))
  | HDisplayAxes display strict =>
      if truthy strict then
        Some (merge_lit h chart
                (TObj [("options", TObj [("scale", TObj [("display", TLeaf display)])])]))
      else
        Some (merge_lit h chart
                (TObj [("options", TObj [("scales", TObj
                   [("xAxes", TArr [TObj [("display", TLeaf display)]]);
                    ("yAxes", TArr [TObj [("display", TLeaf display)]])])])]))
  | HPadding padding =>
      Some (merge_lit h chart
              (TObj [("options", TObj [("layout", TObj [("padding", TLeaf padding)])])]))
  | HDatasets t general => datasets_hook t general h chart
  | HTitle title =>
      Some (merge_lit h chart (TObj [("options", TObj [("title", TLeaf title)])]))
  | HBeginAtZero b =>
      Some (merge_lit h chart
              (TObj [("options", TObj [("scales", TObj
                 [("yAxes", TArr [TObj [("ticks", TObj [("beginAtZero", TLeaf b)])]])])])]))
  end.

(** Modelled from the spec: applying a chain ([BaseHooks] of
    [@chartisan/chartisan], spec section 4.3) folds the hooks over the base
    configuration in registration order. *)
Fixpoint apply_hooks (hs : list hook) (h : heap) (chart : val) : option (heap * val) :=
  match hs with
  | [] => Some (h, chart)
  | k :: hs' =>
      let? '(h1, chart1) := run_hook k h chart in
      apply_hooks hs' h1 chart1
  end.

(** The hooks that return [mergeOptions(chart, { ... })]. *)
Definition merge_hook (k : hook) : bool :=
  match k with
  | HResponsive _ | HLegend _ | HDisplayAxes _ _ | HPadding _ | HTitle _ | HBeginAtZero _ => true
  | HColors _ | HDatasets _ _ => false
  end.

(* ------------------------------------------------------------------ *)
(** ** Registration methods of [Hooks] *)

(** The heap and [this.hooks].  A method returns [this]; fluent chaining
    is sequential composition of the methods below. *)
Definition state := (heap * list hook)%type.

(** [types.map(e => (typeof e === 'string' ? { type: e } : e))], after the
    result array has been created. *)
Fixpoint normalize_types (h : heap) (es : list val) : heap * list val :=
  match es with
  | [] => (h, [])
  | e :: es' =>
      let '(h1, v) :=
        match e with
        | VP (PStr _) => alloc h (plain [("type", e)])
        | _ => (h, e)
        end in
      let '(h2, vs) := normalize_types h1 es' in
      (h2, v :: vs)
  end.

Section Registration.
(** [colorPalette], imported from [@chartisan/chartisan]. *)
Variable colorPalette : val.

Definition reg_colors (colors : val) (st : state) : state :=
  let '(h, hs) := st in
  let colors := default colors colorPalette in
  (h, hs ++ [HColors colors]).

Definition reg_responsive (maintainAspectRatio : val) (st : state) : state :=
  let '(h, hs) := st in
  let maintainAspectRatio := default maintainAspectRatio (vbool true) in
  (h, hs ++ [HResponsive maintainAspectRatio]).

Definition reg_legend (legend : val) (st : state) : state :=
  let '(h, hs) := st in
  let '(h1, legend) :=
    match legend with VP PUndef => alloc h (plain []) | _ => (h, legend) end in
  let '(h2, legend) :=
    match legend with
    | VP (PBool b) => alloc h1 (plain [("display", legend)])
    | _ => (h1, legend)
    end in
  (h2, hs ++ [HLegend legend]).

Definition reg_displayAxes (display strict : val) (st : state) : state :=
  let '(h, hs) := st in
  let display := default display (vbool true) in
  let strict := default strict (vbool false) in
  (h, hs ++ [HDisplayAxes display strict]).

Definition reg_minimalist (value : val) (st : state) : state :=
  let '(h, hs) := st in
  let value := default value (vbool true) in
  let '(h1, o) := alloc h (plain [("display", vbool (negb (truthy value)))]) in
  let st1 := reg_legend o (h1, hs) in
  reg_displayAxes (vbool (negb (truthy value))) undef st1.

Definition reg_padding (padding : val) (st : state) : state :=
  let '(h, hs) := st in
  let padding := default padding (vnum 5) in
  (h, hs ++ [HPadding padding]).

Definition reg_datasets (types general : val) (st : state) : state :=
  let '(h, hs) := st in
  let general := default general (vstr "bar") in
  let '(h1, t) :=
    match array_elems h types with
    | Some es =>
        let la := List.length h in
        let '(h1, vs) := normalize_types (h ++ [array []]) es in
        (replace_nth h1 la (array vs), VRef la)
    | None =>
        let '(h1, o) := alloc h (plain [("type", types)]) in
        alloc h1 (array [o])
    end in
  (h1, hs ++ [HDatasets t general]).

Definition reg_title (title : val) (st : state) : state :=
  let '(h, hs) := st in
  let '(h1, title) :=
    match title with VP PUndef => alloc h (plain []) | _ => (h, title) end in
  let '(h2, title) :=
    match title with
    | VP (PStr _) => alloc h1 (plain [("text", title); ("display", vbool true)])
    | _ => alloc h1 (plain (assign [("display", vbool true)] (spread_fields h1 title)))
    end in
  (h2, hs ++ [HTitle title]).

Definition reg_beginAtZero (beginAtZero : val) (st : state) : state :=
  let '(h, hs) := st in
  let beginAtZero := default beginAtZero (vbool true) in
  (h, hs ++ [HBeginAtZero beginAtZero]).
End Registration.

(** Small configurations for the examples below. *)
Definition ds_heap (n : nat) : heap :=
  map (fun i => plain [("label", vnum (Z.of_nat i))]) (seq 0 n) ++
  [array (map VRef (seq 0 n));
   plain [("datasets", VRef n)];
   plain [("type", vstr "line"); ("data", VRef (S n))]].

Definition ds_chart (n : nat) : val := VRef (S (S n)).

(** The [type] of each of the first [n] datasets of [chart.data.datasets]. *)
Definition dataset_types (h : heap) (chart : val) (n : nat) : list (option val) :=
  map (fun i => let? ds := opt_datasets h chart in
                let? e := get_idx h ds (Z.of_nat i) in
                get_prop h e "type") (seq 0 n).

(* ------------------------------------------------------------------ *)
(** ** Auxiliary definitions of the proofs *)

Section AllocDefs.
Context {A : Type} (leaf : A -> val).

Definition alloc_list : heap -> list (tree A) -> heap * list val :=
  fix go h ts :=
    match ts with
    | [] => (h, [])
    | t :: ts' =>
        let '(h1, v) := alloc_tree leaf h t in
        let '(h2, vs) := go h1 ts' in
        (h2, v :: vs)
    end.

Definition alloc_fields : heap -> fields (tree A) -> heap * fields val :=
  fix go h fs :=
    match fs with
    | [] => (h, [])
    | (k, t) :: fs' =>
        let '(h1, v) := alloc_tree leaf h t in
        let '(h2, kvs) := go h1 fs' in
        (h2, (k, v) :: kvs)
    end.
End AllocDefs.

(** The key loop of [mergeOptions] on two mappings. *)
Definition merge_go : fields json -> fields json -> fields json :=
  fix go (acc : fields json) (fs : fields json) : fields json :=
    match fs with
    | [] => acc
    | (k, fv) :: fs' =>
        go (set_field acc k
              (match get_field acc k with
               | Some bv => mergeOptions bv fv
               | None => fv
               end)) fs'
    end.

(** [h'] is [h] with more objects allocated. *)
Definition ext (h h' : heap) : Prop := exists x, h' = h ++ x.

Fixpoint tdepth {A} (t : tree A) : nat :=
  match t with
  | TLeaf _ => 0
  | TArr ts => S (list_max (map tdepth ts))
  | TObj fs => S (list_max (map (fun kv => tdepth (snd kv)) fs))
  end.

Fixpoint tmap {A B} (f : A -> B) (t : tree A) : tree B :=
  match t with
  | TLeaf a => TLeaf (f a)
  | TArr ts => TArr (map (tmap f) ts)
  | TObj fs => TObj (map (fun kv => (fst kv, tmap f (snd kv))) fs)
  end.

(** The fragment of [displayAxes(display, false)]. *)
Definition axes_frag (display : prim) : json :=
  TObj [("options", TObj [("scales", TObj
          [("xAxes", TArr [TObj [("display", TLeaf display)]]);
           ("yAxes", TArr [TObj [("display", TLeaf display)]])])])].

Definition valid (h : heap) (v : val) : Prop :=
  match v with VRef l => l < List.length h | VP _ => True end.

(** [o.k = x] for the object [o] stored at [l]. *)
Definition upd_prop (h : heap) (l : loc) (o : obj) (k : string) (x : val) : heap :=
  replace_nth h l (mkobj (set_field (props o) k x) (elems o)).

(** The objects built by the callbacks of a [map] from index [i] on. *)
Definition cells (G : val -> nat -> obj) (es : list val) (i : nat) : list obj :=
  map (fun p => G (fst p) (snd p)) (combine es (seq i (List.length es))).

(** The tail shared by the hooks of [colors] and [datasets]:
    [chart.data.datasets = chart.data.datasets.map(...)]. *)
Definition remap (h : heap) (chart : val) (f : heap -> val -> nat -> option (heap * val))
    : option (heap * val) :=
  let? data := get_prop h chart "data" in
  let? ds := get_prop h data "datasets" in
  let? '(h1, arr) := js_map h ds f in
  let? h2 := set_prop h1 data "datasets" arr in
  Some (h2, chart).

(** The heap after [remap]: a new array of new objects, stored in the data
    block's [datasets]. *)
Definition remapped (h : heap) (d : loc) (od : obj) (G : val -> nat -> obj) (es : list val) : heap :=
  upd_prop (h ++ array (map VRef (seq (S (List.length h)) (List.length es))) :: cells G es 0)
           d od "datasets" (VRef (List.length h)).

(** The dataset object built by the colors hook. *)
Definition color_obj (h : heap) (colors : val) (e : val) (i : nat) : obj :=
  let c := match cyc_at h colors i with Some c => c | None => undef end in
  plain (set_field (set_field (assign [] (spread_fields h e)) "borderColor" c) "backgroundColor" c).

(** The dataset [e] is an existing record (a non-array object) [o]. *)
Definition record_at (h : heap) (e : val) (o : obj) : Prop :=
  exists l, e = VRef l /\ nth_error h l = Some o /\ elems o = None.

(** The dataset object built by the datasets hook from the dataset [e] and
    the normalized entries [ts]. *)
Definition ds_obj (h : heap) (ts : list val) (e : val) (i : nat) : obj :=
  plain (assign (assign [] (spread_fields h e))
                (spread_fields h (nth (i mod List.length ts) ts undef))).

(** What [datasets] keeps for one entry of its list: a string [x] becomes a
    new object [{type: x}], any other value is kept. *)
Definition norm_rel (h : heap) (e v : val) : Prop :=
  match e with
  | VP (PStr _) => exists l, v = VRef l /\ nth_error h l = Some (plain [("type", e)])
  | _ => v = e
  end.

(** [v] reads completely within fuel [n]: no reference on the way is
    dangling and no chain of references is longer than [n]. *)
Fixpoint wf (n : nat) (h : heap) (v : val) : bool :=
  match v with
  | VP _ => true
  | VRef l =>
      match n with
      | 0 => false
      | S n' =>
          match nth_error h l with
          | None => false
          | Some o =>
              match elems o with
              | Some es => forallb (wf n' h) es
              | None => forallb (fun kv => wf n' h (snd kv)) (props o)
              end
          end
      end
  end.

(** A literal with each captured value replaced by the tree it reads as. *)
Fixpoint tsubst (f : val -> json) (e : lit) : json :=
  match e with
  | TLeaf v => f v
  | TArr ts => TArr (map (tsubst f) ts)
  | TObj fs => TObj (map (fun kv => (fst kv, tsubst f (snd kv))) fs)
  end.

(** Every value captured in the literal reads completely within fuel [n]. *)
Fixpoint lit_ok (n : nat) (h : heap) (e : lit) : bool :=
  match e with
  | TLeaf v => wf n h v
  | TArr ts => forallb (lit_ok n h) ts
  | TObj fs => forallb (fun kv => lit_ok n h (snd kv)) fs
  end.

(** The one-path fragment [{k1: {k2: ... v}}]. *)
Fixpoint nest (p : list string) (v : json) : json :=
  match p with
  | [] => v
  | k :: p' => TObj [(k, nest p' v)]
  end.

(** The paths [p] and [q] part at some key. *)
Fixpoint diverges (p q : list string) : bool :=
  match p, q with
  | k :: p', k' :: q' => if String.eqb k k' then diverges p' q' else true
  | _, _ => false
  end.

(* ------------------------------------------------------------------ *)
(** ** Property lists *)

Lemma get_set_field {A} (fs : fields A) k v k' :
  get_field (set_field fs k v) k' = if String.eqb k' k then Some v else get_field fs k'.
Proof.
  induction fs as [|[k0 v0] fs IH]; simpl.
  - destruct (String.eqb k' k); reflexivity.
  - destruct (String.eqb_spec k k0) as [->|Hne]; simpl.
    + destruct (String.eqb k' k0); reflexivity.
    + rewrite IH. destruct (String.eqb_spec k' k) as [E|E]; [|reflexivity].
      subst k'. apply String.eqb_neq in Hne. now rewrite Hne.
Qed.

Lemma get_field_none_notin {A} (fs : fields A) k :
  ~ In k (map fst fs) -> get_field fs k = None.
Proof.
  induction fs as [|[k0 v0] fs IH]; simpl; intros Hn; [reflexivity|].
  destruct (String.eqb_spec k k0) as [->|]; [tauto|]. apply IH; tauto.
Qed.

Lemma get_field_assign {A} (gs fs : fields A) k :
  NoDup (map fst gs) ->
  get_field (assign fs gs) k =
  match get_field gs k with Some v => Some v | None => get_field fs k end.
Proof.
  unfold assign. revert fs.
  induction gs as [|[k0 v0] gs IH]; intros fs Hnd; simpl; [reflexivity|].
  inversion Hnd as [|? ? Hnin Hnd']; subst.
  rewrite IH by assumption. rewrite get_set_field.
  destruct (String.eqb_spec k k0) as [->|Hne].
  - now rewrite (get_field_none_notin gs k0 Hnin).
  - destruct (get_field gs k); reflexivity.
Qed.

(* ------------------------------------------------------------------ *)
(** ** The merge engine *)

Lemma mergeOptions_obj bs fs : mergeOptions (TObj bs) (TObj fs) = TObj (merge_go bs fs).
Proof. reflexivity. Qed.

Lemma mergeOptions_not_obj b f :
  (forall bs fs, b = TObj bs -> f = TObj fs -> False) -> mergeOptions b f = f.
Proof.
  intros H. destruct b as [| |bs]; destruct f as [| |fs]; try reflexivity.
  exfalso; eapply H; reflexivity.
Qed.

Lemma get_merge_go acc fs k :
  NoDup (map fst fs) ->
  get_field (merge_go acc fs) k =
  match get_field fs k with
  | Some fv => Some (match get_field acc k with Some bv => mergeOptions bv fv | None => fv end)
  | None => get_field acc k
  end.
Proof.
  revert acc. induction fs as [|[k0 fv0] fs IH]; intros acc Hnd; simpl; [reflexivity|].
  inversion Hnd as [|? ? Hnin Hnd']; subst.
  rewrite IH by assumption. rewrite !get_set_field.
  destruct (String.eqb_spec k k0) as [->|Hne].
  - now rewrite (get_field_none_notin fs k0 Hnin).
  - reflexivity.
Qed.

(** One key of a merge into a fragment mapping. *)
Lemma get_mergeOptions b fs k fv :
  NoDup (map fst fs) -> get_field fs k = Some fv ->
  match mergeOptions b (TObj fs) with
  | TObj rs => get_field rs k =
               Some (match b with
                     | TObj bs => match get_field bs k with
                                  | Some bv => mergeOptions bv fv
                                  | None => fv
                                  end
                     | _ => fv
                     end)
  | _ => False
  end.
Proof.
  intros Hnd Hk. destruct b as [| |bs]; [exact Hk | exact Hk |].
  rewrite mergeOptions_obj.
  change (get_field (merge_go bs fs) k =
          Some (match get_field bs k with Some bv => mergeOptions bv fv | None => fv end)).
  rewrite get_merge_go by assumption. rewrite Hk. reflexivity.
Qed.

(* ------------------------------------------------------------------ *)
(** ** Claims *)

(** C2: [mergeOptions] applied to a base mapping and a fragment mapping
    gives a mapping over the union of their keys; at a key of the fragment,
    two mappings are merged recursively and any other fragment value (scalar,
    array, type mismatch) replaces the base's value; a key only in the base
    keeps its value.  In particular a fragment array always replaces the
    base's value wholesale. *)
Theorem mergeOptions_spec :
  (forall bs fs, NoDup (map fst fs) ->
   exists rs, mergeOptions (TObj bs) (TObj fs) = TObj rs /\
   (forall k fv, get_field fs k = Some fv ->
      get_field rs k =
      Some (match get_field bs k, fv with
            | Some (TObj bs'), TObj fs' => mergeOptions (TObj bs') (TObj fs')
            | _, _ => fv
            end)) /\
   (forall k, get_field fs k = None -> get_field rs k = get_field bs k)) /\
  (forall b ts, mergeOptions b (TArr ts) = TArr ts).
Proof.
  split.
  - intros bs fs Hnd. exists (merge_go bs fs). split; [reflexivity|]. split.
    + intros k fv Hk. rewrite get_merge_go, Hk by assumption.
      destruct (get_field bs k) as [bv|]; [|reflexivity].
      destruct bv as [| |bs']; destruct fv; reflexivity.
    + intros k Hk. rewrite get_merge_go, Hk by assumption. reflexivity.
  - intros b ts. destruct b; reflexivity.
Qed.

(** C2, at concrete mappings. *)
Lemma mergeOptions_spec_witness :
  NoDup (map fst [("a", TLeaf (PNum 1)); ("b", @TArr prim [])]) /\
  exists rs, mergeOptions (TObj [("b", TArr [TLeaf (PNum 2)]); ("c", TLeaf PNull)])
                          (TObj [("a", TLeaf (PNum 1)); ("b", TArr [])]) = TObj rs.
Proof.
  split.
  - repeat constructor; simpl; intuition discriminate.
  - destruct mergeOptions_spec as [H _].
    destruct (H [("b", TArr [TLeaf (PNum 2)]); ("c", TLeaf PNull)]
                [("a", TLeaf (PNum 1)); ("b", TArr [])]) as [rs [E _]].
    + repeat constructor; simpl; intuition discriminate.
    + exists rs. exact E.
Defined.

(** C6: [title] normalises its argument when it is registered: a string
    [s] becomes [{text: s, display: true}]; an options object becomes a new
    object with the object's properties over a default [display: true], so
    an explicit [display] (also [false]) is kept. *)
Theorem title_normalization :
  (forall s h hs,
     reg_title (vstr s) (h, hs) =
     (h ++ [plain [("text", vstr s); ("display", vbool true)]],
      hs ++ [HTitle (VRef (List.length h))])) /\
  (forall l o h hs,
     nth_error h l = Some o -> elems o = None -> NoDup (map fst (props o)) ->
     exists fs',
       reg_title (VRef l) (h, hs) = (h ++ [plain fs'], hs ++ [HTitle (VRef (List.length h))]) /\
       forall k, get_field fs' k =
                 match get_field (props o) k with
                 | Some v => Some v
                 | None => if String.eqb k "display" then Some (vbool true) else None
                 end).
Proof.
  split.
  - intros s h hs. reflexivity.
  - intros l o h hs Hl He Hnd.
    exists (assign [("display", vbool true)] (props o)). split.
    + simpl. rewrite Hl, He. reflexivity.
    + intros k. rewrite get_field_assign by exact Hnd. reflexivity.
Qed.

(** C6, at [title("Revenue")] and [title({text: "Revenue", display: false})]. *)
Lemma title_normalization_witness :
  reg_title (vstr "Revenue") ([], []) =
    ([plain [("text", vstr "Revenue"); ("display", vbool true)]], [HTitle (VRef 0)]) /\
  exists fs',
    reg_title (VRef 0) ([plain [("text", vstr "Revenue"); ("display", vbool false)]], []) =
      ([plain [("text", vstr "Revenue"); ("display", vbool false)]; plain fs'],
       [HTitle (VRef 1)]) /\
    get_field fs' "text" = Some (vstr "Revenue") /\
    get_field fs' "display" = Some (vbool false).
Proof.
  destruct title_normalization as [H1 H2]. split; [apply (H1 "Revenue" [] [])|].
  destruct (H2 0 (plain [("text", vstr "Revenue"); ("display", vbool false)])
              [plain [("text", vstr "Revenue"); ("display", vbool false)]] [])
    as [fs' [E G]]; [reflexivity | reflexivity | repeat constructor; simpl; intuition discriminate |].
  exists fs'. split; [exact E|]. split; [apply (G "text") | apply (G "display")].
Defined.

(** C7: [minimalist(value)] registers exactly what [legend({display: !value})]
    followed by [displayAxes(!value)] registers at the same point: the same
    heap (the literal [{display: !value}]) and the same two hooks, so the
    chains agree on every base configuration. *)
Theorem minimalist_is_legend_then_displayAxes :
  forall b h hs,
  reg_minimalist (vbool b) (h, hs) =
    (let '(h1, o) := alloc h (plain [("display", vbool (negb b))]) in
     reg_displayAxes (vbool (negb b)) undef (reg_legend o (h1, hs))) /\
  reg_minimalist (vbool b) (h, hs) =
    (h ++ [plain [("display", vbool (negb b))]],
     hs ++ [HLegend (VRef (List.length h)); HDisplayAxes (vbool (negb b)) (vbool false)]) /\
  (forall h0 base,
     apply_hooks (snd (reg_minimalist (vbool b) (h, hs))) h0 base =
     apply_hooks (snd (let '(h1, o) := alloc h (plain [("display", vbool (negb b))]) in
                       reg_displayAxes (vbool (negb b)) undef (reg_legend o (h1, hs)))) h0 base).
Proof.
  intros b h hs.
  assert (E : reg_minimalist (vbool b) (h, hs) =
              (let '(h1, o) := alloc h (plain [("display", vbool (negb b))]) in
               reg_displayAxes (vbool (negb b)) undef (reg_legend o (h1, hs))))
    by reflexivity.
  split; [exact E|]. split.
  - rewrite E. simpl. rewrite <- app_assoc. reflexivity.
  - intros h0 base. rewrite E. reflexivity.
Qed.

(* ------------------------------------------------------------------ *)
(** ** Heap extension and reading back allocated literals *)

Lemma ext_refl h : ext h h.
Proof. exists []. now rewrite app_nil_r. Qed.

Lemma ext_trans h1 h2 h3 : ext h1 h2 -> ext h2 h3 -> ext h1 h3.
Proof. intros [x ->] [y ->]. exists (x ++ y). now rewrite app_assoc. Qed.

Lemma ext_alloc h o : ext h (fst (alloc h o)).
Proof. now exists [o]. Qed.

Lemma ext_length h h' : ext h h' -> List.length h <= List.length h'.
Proof. intros [x ->]. rewrite length_app. lia. Qed.

Lemma nth_error_ext h h' l o : ext h h' -> nth_error h l = Some o -> nth_error h' l = Some o.
Proof.
  intros [x ->] Hl. rewrite nth_error_app1; [exact Hl|].
  apply nth_error_Some. now rewrite Hl.
Qed.

Lemma nth_error_last h o h' : ext (h ++ [o]) h' -> nth_error h' (List.length h) = Some o.
Proof.
  intros Hx. apply (nth_error_ext (h ++ [o])); [exact Hx|].
  rewrite nth_error_app2 by lia. now rewrite Nat.sub_diag.
Qed.

Section Alloc.
Context {A : Type} (leaf : A -> val).

Lemma alloc_tree_arr h ts :
  alloc_tree leaf h (TArr ts) = let '(h1, vs) := alloc_list leaf h ts in alloc h1 (array vs).
Proof. reflexivity. Qed.

Lemma alloc_tree_obj h fs :
  alloc_tree leaf h (TObj fs) = let '(h1, kvs) := alloc_fields leaf h fs in alloc h1 (plain kvs).
Proof. reflexivity. Qed.

(** Allocation only appends, at least one object per level of nesting. *)
Lemma alloc_tree_grows t : forall h,
  ext h (fst (alloc_tree leaf h t)) /\
  List.length h + tdepth t <= List.length (fst (alloc_tree leaf h t)).
Proof.
  induction t as [a|ts IH|fs IH] using tree_ind'; intros h.
  - simpl. split; [apply ext_refl | lia].
  - rewrite alloc_tree_arr.
    assert (L : forall h, ext h (fst (alloc_list leaf h ts)) /\
                Forall (fun t => List.length h + tdepth t <= List.length (fst (alloc_list leaf h ts))) ts).
    { clear h. induction IH as [|t ts Ht _ IHts]; intros h; simpl.
      - split; [apply ext_refl | constructor].
      - destruct (Ht h) as [E1 D1].
        destruct (alloc_tree leaf h t) as [h1 v] eqn:Et; simpl in *.
        destruct (IHts h1) as [E2 D2].
        destruct (alloc_list leaf h1 ts) as [h2 vs]; simpl in *.
        pose proof (ext_length _ _ E1). pose proof (ext_length _ _ E2).
        split; [eapply ext_trans; eassumption|]. constructor; [lia|].
        eapply Forall_impl; [|exact D2]. simpl. intros t' Ht'. lia. }
    destruct (L h) as [E D]. destruct (alloc_list leaf h ts) as [h1 vs]; simpl in *.
    split; [eapply ext_trans; [exact E | apply ext_alloc]|].
    rewrite length_app. simpl.
    assert (list_max (map tdepth ts) <= List.length h1 - List.length h).
    { apply list_max_le. apply Forall_map. eapply Forall_impl; [|exact D].
      simpl. intros t Ht. lia. }
    pose proof (ext_length _ _ E). lia.
  - rewrite alloc_tree_obj.
    assert (L : forall h, ext h (fst (alloc_fields leaf h fs)) /\
                Forall (fun kv => List.length h + tdepth (snd kv) <=
                                  List.length (fst (alloc_fields leaf h fs))) fs).
    { clear h. induction IH as [|[k t] fs Ht _ IHfs]; intros h; simpl.
      - split; [apply ext_refl | constructor].
      - destruct (Ht h) as [E1 D1]. simpl in *.
        destruct (alloc_tree leaf h t) as [h1 v] eqn:Et; simpl in *.
        destruct (IHfs h1) as [E2 D2].
        destruct (alloc_fields leaf h1 fs) as [h2 kvs]; simpl in *.
        pose proof (ext_length _ _ E1). pose proof (ext_length _ _ E2).
        split; [eapply ext_trans; eassumption|]. constructor; [simpl; lia|].
        eapply Forall_impl; [|exact D2]. simpl. intros kv Hkv. lia. }
    destruct (L h) as [E D]. destruct (alloc_fields leaf h fs) as [h1 kvs]; simpl in *.
    split; [eapply ext_trans; [exact E | apply ext_alloc]|].
    rewrite length_app. simpl.
    assert (list_max (map (fun kv => tdepth (snd kv)) fs) <= List.length h1 - List.length h).
    { apply list_max_le. apply Forall_map. eapply Forall_impl; [|exact D].
      simpl. intros kv Hkv. lia. }
    pose proof (ext_length _ _ E). lia.
Qed.
End Alloc.

Section AllocLists.
Context {A : Type} (leaf : A -> val).

Lemma alloc_list_ext ts : forall h, ext h (fst (alloc_list leaf h ts)).
Proof.
  induction ts as [|t ts IH]; intros h; simpl; [apply ext_refl|].
  destruct (alloc_tree_grows leaf t h) as [E _].
  destruct (alloc_tree leaf h t) as [h1 v]. simpl in *.
  specialize (IH h1). destruct (alloc_list leaf h1 ts) as [h2 vs].
  eapply ext_trans; eassumption.
Qed.

Lemma alloc_fields_ext fs : forall h, ext h (fst (alloc_fields leaf h fs)).
Proof.
  induction fs as [|[k t] fs IH]; intros h; simpl; [apply ext_refl|].
  destruct (alloc_tree_grows leaf t h) as [E _].
  destruct (alloc_tree leaf h t) as [h1 v]. simpl in *.
  specialize (IH h1). destruct (alloc_fields leaf h1 fs) as [h2 kvs].
  eapply ext_trans; eassumption.
Qed.
End AllocLists.

(** A configuration tree written to the heap reads back as itself. *)
Lemma read_alloc_json (t : json) : forall h h'' n,
  ext (fst (alloc_tree VP h t)) h'' -> tdepth t <= n ->
  read n h'' (snd (alloc_tree VP h t)) = t.
Proof.
  induction t as [a|ts IH|fs IH] using tree_ind'; intros h h'' n Hx Hd.
  - destruct n; reflexivity.
  - rewrite alloc_tree_arr in *.
    pose proof (alloc_list_ext VP ts h) as E.
    destruct (alloc_list VP h ts) as [h1 vs] eqn:El. simpl in *.
    destruct n as [|n]; [lia|]. simpl. rewrite (nth_error_last _ _ _ Hx). simpl.
    f_equal.
    assert (Hd' : Forall (fun t => tdepth t <= n) ts).
    { apply (Forall_map tdepth (fun d => d <= n)). apply list_max_le. lia. }
    assert (Hx1 : ext h1 h'') by (eapply ext_trans; [apply ext_alloc | exact Hx]).
    clear E Hx Hd. revert h vs El. induction IH as [|t ts Ht _ IHts]; intros h vs El.
    + simpl in El. now inversion El.
    + simpl in El. inversion Hd' as [|? ? Hdt Hdts]; subst.
      destruct (alloc_tree VP h t) as [h0 v] eqn:Et.
      destruct (alloc_list VP h0 ts) as [h2 vs'] eqn:El2.
      pose proof (alloc_list_ext VP ts h0) as E2. rewrite El2 in E2.
      inversion El; subst. simpl in *.
      f_equal.
      * change v with (snd (h0, v)). rewrite <- Et. apply Ht; [|exact Hdt].
        rewrite Et. simpl. eapply ext_trans; eassumption.
      * eapply IHts; eassumption.
  - rewrite alloc_tree_obj in *.
    pose proof (alloc_fields_ext VP fs h) as E.
    destruct (alloc_fields VP h fs) as [h1 kvs] eqn:El. simpl in *.
    destruct n as [|n]; [lia|]. simpl. rewrite (nth_error_last _ _ _ Hx). simpl.
    f_equal.
    assert (Hd' : Forall (fun kv => tdepth (snd kv) <= n) fs).
    { apply (Forall_map (fun kv => tdepth (snd kv)) (fun d => d <= n)). apply list_max_le. lia. }
    assert (Hx1 : ext h1 h'') by (eapply ext_trans; [apply ext_alloc | exact Hx]).
    clear E Hx Hd. revert h kvs El. induction IH as [|[k t] fs Ht _ IHfs]; intros h kvs El.
    + simpl in El. now inversion El.
    + simpl in El. inversion Hd' as [|? ? Hdt Hdfs]; subst. simpl in Ht, Hdt.
      destruct (alloc_tree VP h t) as [h0 v] eqn:Et.
      destruct (alloc_fields VP h0 fs) as [h2 kvs'] eqn:El2.
      pose proof (alloc_fields_ext VP fs h0) as E2. rewrite El2 in E2.
      inversion El; subst. simpl in *.
      f_equal.
      * f_equal. change v with (snd (h0, v)). rewrite <- Et. apply Ht; [|exact Hdt].
        rewrite Et. simpl. eapply ext_trans; eassumption.
      * eapply IHfs; eassumption.
Qed.

Lemma config_alloc_json h (t : json) :
  config (fst (alloc_tree VP h t)) (snd (alloc_tree VP h t)) = t.
Proof.
  unfold config. apply read_alloc_json; [apply ext_refl|].
  destruct (alloc_tree_grows VP t h). lia.
Qed.

Lemma alloc_tree_tmap {A B} (leaf : B -> val) (f : A -> B) (t : tree A) : forall h,
  alloc_tree leaf h (tmap f t) = alloc_tree (fun a => leaf (f a)) h t.
Proof.
  induction t as [a|ts IH|fs IH] using tree_ind'; intros h.
  - reflexivity.
  - simpl tmap. rewrite !alloc_tree_arr.
    assert (L : forall h, alloc_list leaf h (map (tmap f) ts) = alloc_list (fun a => leaf (f a)) h ts).
    { clear h. induction IH as [|t ts Ht _ IHts]; intros h; simpl; [reflexivity|].
      rewrite Ht. destruct (alloc_tree (fun a => leaf (f a)) h t) as [h1 v].
      now rewrite IHts. }
    now rewrite L.
  - simpl tmap. rewrite !alloc_tree_obj.
    assert (L : forall h, alloc_fields leaf h (map (fun kv => (fst kv, tmap f (snd kv))) fs) =
                          alloc_fields (fun a => leaf (f a)) h fs).
    { clear h. induction IH as [|[k t] fs Ht _ IHfs]; intros h; simpl; [reflexivity|].
      simpl in Ht. rewrite Ht. destruct (alloc_tree (fun a => leaf (f a)) h t) as [h1 v].
      now rewrite IHfs. }
    now rewrite L.
Qed.

(** A hook merging a fragment literal without captured references: the
    resulting configuration is the merge of the fragment into the base. *)
Lemma config_merge_lit h chart (t : json) :
  exists h1, config (fst (merge_lit h chart (tmap VP t))) (snd (merge_lit h chart (tmap VP t))) =
             mergeOptions (config h1 chart) t.
Proof.
  unfold merge_lit, new_lit. rewrite alloc_tree_tmap.
  pose proof (config_alloc_json h t) as Ef.
  destruct (alloc_tree (fun a => VP a) h t) as [h1 f]. simpl in Ef.
  exists h1. unfold mergeOptionsH. rewrite Ef. apply config_alloc_json.
Qed.

Lemma tpath_merge_step b fs k fv p :
  NoDup (map fst fs) -> get_field fs k = Some fv ->
  exists b', tpath (k :: p) (mergeOptions b (TObj fs)) = tpath p (mergeOptions b' fv).
Proof.
  intros Hnd Hk. destruct b as [a|ts|bs].
  - exists (TLeaf PUndef). simpl. rewrite Hk. destruct fv; reflexivity.
  - exists (TLeaf PUndef). simpl. rewrite Hk. destruct fv; reflexivity.
  - rewrite mergeOptions_obj. simpl. rewrite get_merge_go, Hk by exact Hnd.
    destruct (get_field bs k) as [bv|].
    + now exists bv.
    + exists (TLeaf PUndef). destruct fv; reflexivity.
Qed.

Ltac merge_step :=
  match goal with
  | |- context [tpath (?k :: ?p) (mergeOptions ?b (TObj ?fs))] =>
      let b' := fresh "b" in
      let E := fresh "E" in
      destruct (tpath_merge_step b fs k _ p
                  ltac:(repeat constructor; simpl; intuition discriminate) eq_refl) as [b' E];
      rewrite E; clear E
  end.

Lemma axes_frag_wins b d :
  tpath ["options"; "scales"; "xAxes"] (mergeOptions b (axes_frag d)) =
    Some (TArr [TObj [("display", TLeaf d)]]) /\
  tpath ["options"; "scales"; "yAxes"] (mergeOptions b (axes_frag d)) =
    Some (TArr [TObj [("display", TLeaf d)]]).
Proof.
  unfold axes_frag. split; do 3 merge_step; match goal with |- context [mergeOptions ?b _] => destruct b end; reflexivity.
Qed.

(** C8: on every heap and base configuration, the chain of
    [displayAxes(true, false)] then [displayAxes(false, false)] gives
    [options.scales.xAxes] and [options.scales.yAxes] equal to the single
    entry arrays [[{display: false}]] of the second call. *)
Theorem displayAxes_twice_replaces :
  forall h0 h base,
  exists h' r,
    apply_hooks (snd (reg_displayAxes (vbool false) (vbool false)
                        (reg_displayAxes (vbool true) (vbool false) (h0, [])))) h base
      = Some (h', r) /\
    tpath ["options"; "scales"; "xAxes"] (config h' r) =
      Some (TArr [TObj [("display", TLeaf (PBool false))]]) /\
    tpath ["options"; "scales"; "yAxes"] (config h' r) =
      Some (TArr [TObj [("display", TLeaf (PBool false))]]).
Proof.
  intros h0 h base.
  assert (L : forall d, TObj [("options", TObj [("scales", TObj
                [("xAxes", TArr [TObj [("display", TLeaf (VP d))]]);
                 ("yAxes", TArr [TObj [("display", TLeaf (VP d))]])])])]
                     = tmap VP (axes_frag d)) by reflexivity.
  simpl. rewrite !L.
  destruct (merge_lit h base (tmap VP (axes_frag (PBool true)))) as [h1 r1].
  destruct (config_merge_lit h1 r1 (axes_frag (PBool false))) as [h2 C].
  destruct (merge_lit h1 r1 (tmap VP (axes_frag (PBool false)))) as [h' r]. simpl in C.
  exists h', r. split; [reflexivity|]. rewrite C. apply axes_frag_wins.
Qed.

(** C3 fails: the hooks of [datasets('bar')] and [colors(['red'])] change the
    caller's configuration in place.  They return the same object, whose
    [type] was ['line'] and is ['bar'] afterwards, and whose data block's
    [datasets] now refers to a new array. *)
Lemma hooks_mutate_base_cex :
  let st := reg_colors undef (VRef 5)
              (reg_datasets (vstr "bar") undef (ds_heap 2 ++ [array [vstr "red"]], [])) in
  get_prop (fst st) (ds_chart 2) "type" = Some (vstr "line") /\
  get_prop (fst st) (VRef 3) "datasets" = Some (VRef 2) /\
  match apply_hooks (snd st) (fst st) (ds_chart 2) with
  | Some (h', r) =>
      r = ds_chart 2 /\
      get_prop h' (ds_chart 2) "type" = Some (vstr "bar") /\
      get_prop h' (VRef 3) "datasets" <> Some (VRef 2)
  | None => False
  end.
Proof. vm_compute. repeat split; try reflexivity. discriminate. Qed.

(** C4 fails: on a configuration without a dataset sequence the hook of
    [datasets('line')] still sets the chart type, to the default ['bar']. *)
Lemma datasets_without_datasets_cex :
  let st := reg_datasets (vstr "line") undef ([plain [("type", vstr "pie")]], []) in
  get_prop (fst st) (VRef 0) "type" = Some (vstr "pie") /\
  opt_datasets (fst st) (VRef 0) = Some undef /\
  match apply_hooks (snd st) (fst st) (VRef 0) with
  | Some (h', r) => r = VRef 0 /\ get_prop h' (VRef 0) "type" = Some (vstr "bar")
  | None => False
  end.
Proof. vm_compute. repeat split; reflexivity. Qed.

(** C9 fails: [legend(opts)] keeps a reference to [opts]; setting
    [opts.display = false] after registration changes what the hook merges. *)
Lemma legend_shares_argument_cex :
  let st := reg_legend (VRef 0) ([plain [("display", vbool true)]; plain []], []) in
  let mutated := replace_nth (fst st) 0 (plain [("display", vbool false)]) in
  snd st = [HLegend (VRef 0)] /\
  option_map (fun '(h', r) => tpath ["options"; "legend"; "display"] (config h' r))
    (apply_hooks (snd st) (fst st) (VRef 1)) = Some (Some (TLeaf (PBool true))) /\
  option_map (fun '(h', r) => tpath ["options"; "legend"; "display"] (config h' r))
    (apply_hooks (snd st) mutated (VRef 1)) = Some (Some (TLeaf (PBool false))).
Proof. vm_compute. repeat split; reflexivity. Qed.

(* ------------------------------------------------------------------ *)
(** ** Reading the heap after allocation and update *)

Lemma valid_ext h h' v : ext h h' -> valid h v -> valid h' v.
Proof. intros E. destruct v; simpl; [auto|]. pose proof (ext_length _ _ E). lia. Qed.

Lemma get_prop_ext h h' v k x : ext h h' -> get_prop h v k = Some x -> get_prop h' v k = Some x.
Proof.
  intros E. destruct v as [p|l]; [destruct p; simpl; auto|]. simpl.
  destruct (nth_error h l) as [o|] eqn:Hl; [|discriminate].
  rewrite (nth_error_ext _ _ _ _ E Hl). auto.
Qed.

Lemma get_idx_ext h h' v n x : ext h h' -> get_idx h v n = Some x -> get_idx h' v n = Some x.
Proof.
  intros E. destruct v as [p|l]; [destruct p; simpl; auto|]. simpl.
  destruct (nth_error h l) as [o|] eqn:Hl; [|discriminate].
  rewrite (nth_error_ext _ _ _ _ E Hl). auto.
Qed.

Lemma cyc_at_ext h h' v i x : ext h h' -> cyc_at h v i = Some x -> cyc_at h' v i = Some x.
Proof.
  intros E. unfold cyc_at, obind.
  destruct (get_prop h v "length") as [len|] eqn:Hlen; [|discriminate].
  rewrite (get_prop_ext _ _ _ _ _ E Hlen).
  destruct len as [[| | |n|]|]; try apply get_prop_ext, E.
  destruct (Z.eqb n 0); [apply get_prop_ext, E | apply get_idx_ext, E].
Qed.

Lemma array_elems_ext h h' v es : ext h h' -> array_elems h v = Some es -> array_elems h' v = Some es.
Proof.
  intros E. destruct v as [p|l]; simpl; [discriminate|].
  destruct (nth_error h l) as [o|] eqn:Hl; [|discriminate].
  now rewrite (nth_error_ext _ _ _ _ E Hl).
Qed.

Lemma spread_fields_ext h h' v : ext h h' -> valid h v -> spread_fields h' v = spread_fields h v.
Proof.
  intros E Hv. destruct v as [p|l]; simpl; [reflexivity|]. simpl in Hv.
  destruct (nth_error h l) as [o|] eqn:Hl.
  - now rewrite (nth_error_ext _ _ _ _ E Hl).
  - apply nth_error_None in Hl. lia.
Qed.

Lemma length_replace_nth h l o : List.length (replace_nth h l o) = List.length h.
Proof. revert l. induction h as [|o' h IH]; intros [|l]; simpl; auto. Qed.

Lemma nth_error_replace_nth h l o l' :
  nth_error (replace_nth h l o) l' =
  if Nat.eqb l' l then (if l <? List.length h then Some o else None) else nth_error h l'.
Proof.
  revert l l'. induction h as [|o' h IH]; intros l l'; simpl.
  - destruct (l' =? l); destruct l'; reflexivity.
  - destruct l as [|l], l' as [|l']; simpl; try reflexivity. apply IH.
Qed.

Lemma replace_nth_app_l h x l o :
  l < List.length h -> replace_nth (h ++ x) l o = replace_nth h l o ++ x.
Proof.
  revert l. induction h as [|o' h IH]; intros [|l] Hl; simpl in *; try lia; auto.
  f_equal. apply IH. lia.
Qed.

Lemma replace_nth_app_r h x l o :
  replace_nth (h ++ x) (List.length h + l) o = h ++ replace_nth x l o.
Proof. induction h as [|o' h IH]; simpl; [reflexivity|]. now rewrite IH. Qed.

Lemma set_prop_ref h l o k x :
  nth_error h l = Some o -> set_prop h (VRef l) k x = Some (upd_prop h l o k x).
Proof. intros Hl. simpl. now rewrite Hl. Qed.

Lemma get_prop_upd_other h l o k x v k' :
  nth_error h l = Some o -> String.eqb k' k = false ->
  get_prop (upd_prop h l o k x) v k' = get_prop h v k'.
Proof.
  intros Hl Hk. destruct v as [p|l']; [reflexivity|]. simpl. unfold upd_prop.
  rewrite nth_error_replace_nth.
  destruct (Nat.eqb_spec l' l) as [->|]; [|reflexivity].
  assert (Hlt : l < List.length h) by (apply nth_error_Some; now rewrite Hl).
  apply Nat.ltb_lt in Hlt. rewrite Hlt, Hl. simpl.
  destruct (elems o); [destruct (String.eqb k' "length")|]; rewrite ?get_set_field, ?Hk; reflexivity.
Qed.

Lemma get_prop_upd_same h l o k x :
  nth_error h l = Some o -> (elems o = None \/ String.eqb k "length" = false) ->
  get_prop (upd_prop h l o k x) (VRef l) k = Some x.
Proof.
  intros Hl Hk. simpl. unfold upd_prop. rewrite nth_error_replace_nth, Nat.eqb_refl.
  assert (Hlt : l < List.length h) by (apply nth_error_Some; now rewrite Hl).
  apply Nat.ltb_lt in Hlt. rewrite Hlt. simpl. rewrite get_set_field, String.eqb_refl.
  destruct Hk as [-> | ->]; [reflexivity|]. now destruct (elems o).
Qed.

Lemma nth_error_upd_other h l o k x l' :
  l' <> l -> nth_error (upd_prop h l o k x) l' = nth_error h l'.
Proof.
  intros Hne. unfold upd_prop. rewrite nth_error_replace_nth.
  apply Nat.eqb_neq in Hne. now rewrite Hne.
Qed.

Lemma length_upd_prop h l o k x : List.length (upd_prop h l o k x) = List.length h.
Proof. apply length_replace_nth. Qed.

(* ------------------------------------------------------------------ *)
(** ** The per-dataset hooks in closed form *)

Lemma map_from_alloc (f : heap -> val -> nat -> option (heap * val)) (G : val -> nat -> obj) h0 es :
  (forall h' e j, ext h0 h' -> In e es -> f h' e j = Some (alloc h' (G e j))) ->
  forall h i, ext h0 h ->
  map_from f h es i = Some (h ++ cells G es i, map VRef (seq (List.length h) (List.length es))).
Proof.
  induction es as [|e es IH]; intros Hf h i E; simpl.
  - now rewrite app_nil_r.
  - rewrite (Hf h e i E (or_introl eq_refl)). simpl.
    rewrite (IH (fun h' e' j H1 H2 => Hf h' e' j H1 (or_intror H2)) (h ++ [G e i]) (S i)
               (ext_trans _ _ _ E (ext_alloc h (G e i)))).
    simpl. rewrite <- app_assoc, length_app. simpl. rewrite Nat.add_1_r. reflexivity.
Qed.

Lemma js_map_alloc h v es f G :
  array_elems h v = Some es ->
  (forall h' e j, ext (h ++ [array []]) h' -> In e es -> f h' e j = Some (alloc h' (G e j))) ->
  js_map h v f =
  Some (h ++ array (map VRef (seq (S (List.length h)) (List.length es))) :: cells G es 0,
        VRef (List.length h)).
Proof.
  intros Hes Hf. unfold js_map. rewrite Hes. simpl.
  rewrite (map_from_alloc f G (h ++ [array []]) es Hf (h ++ [array []]) 0 (ext_refl _)).
  simpl. rewrite length_app, Nat.add_1_r, <- app_assoc. simpl.
  rewrite <- (Nat.add_0_r (List.length h)), replace_nth_app_r, Nat.add_0_r. reflexivity.
Qed.

Lemma cells_cons G e es i : cells G (e :: es) i = G e i :: cells G es (S i).
Proof. reflexivity. Qed.

Lemma nth_error_cells G es i j :
  j < List.length es -> nth_error (cells G es i) j = Some (G (nth j es undef) (i + j)).
Proof.
  revert i j. induction es as [|e es IH]; intros i j Hj; [simpl in Hj; lia|].
  rewrite cells_cons. destruct j as [|j]; simpl; [now rewrite Nat.add_0_r|].
  simpl in Hj. rewrite IH by lia. now rewrite Nat.add_succ_r.
Qed.

Lemma length_cells G es i : List.length (cells G es i) = List.length es.
Proof. unfold cells. rewrite length_map, length_combine, length_seq. lia. Qed.

Lemma remap_closed h chart d od a es f G :
  get_prop h chart "data" = Some (VRef d) -> nth_error h d = Some od ->
  get_prop h (VRef d) "datasets" = Some (VRef a) -> array_elems h (VRef a) = Some es ->
  (forall h' e j, ext (h ++ [array []]) h' -> In e es -> f h' e j = Some (alloc h' (G e j))) ->
  remap h chart f = Some (remapped h d od G es, chart).
Proof.
  intros Hdata Hd Hds Hes Hf. unfold remap. rewrite Hdata. cbn [obind]. rewrite Hds. cbn [obind].
  rewrite (js_map_alloc h (VRef a) es f G Hes Hf). cbn [obind].
  rewrite (set_prop_ref _ d od); [reflexivity|].
  eapply nth_error_ext; [|exact Hd]. eexists. reflexivity.
Qed.

Lemma remapped_facts h chart d od G es :
  get_prop h chart "data" = Some (VRef d) -> nth_error h d = Some od ->
  let h' := remapped h d od G es in
  opt_datasets h' chart = Some (VRef (List.length h)) /\
  array_elems h' (VRef (List.length h)) =
    Some (map VRef (seq (S (List.length h)) (List.length es))) /\
  (forall i, i < List.length es ->
     nth_error h' (S (List.length h) + i) = Some (G (nth i es undef) i)) /\
  (forall l, l < List.length h -> l <> d -> nth_error h' l = nth_error h l).
Proof.
  intros Hdata Hd h'.
  assert (Hlt : d < List.length h) by (apply nth_error_Some; now rewrite Hd).
  set (x := array (map VRef (seq (S (List.length h)) (List.length es))) :: cells G es 0).
  assert (E : ext h (h ++ x)) by (eexists; reflexivity).
  assert (Hd' : nth_error (h ++ x) d = Some od) by (eapply nth_error_ext; eassumption).
  unfold h', remapped. fold x. repeat split.
  - unfold opt_datasets. rewrite get_prop_upd_other by (exact Hd' || reflexivity).
    rewrite (get_prop_ext _ _ _ _ _ E Hdata). cbn [obind].
    apply get_prop_upd_same; [exact Hd' | right; reflexivity].
  - simpl. rewrite nth_error_upd_other by lia.
    rewrite nth_error_app2 by lia. rewrite Nat.sub_diag. reflexivity.
  - intros i Hi. rewrite nth_error_upd_other by lia.
    rewrite nth_error_app2 by lia.
    replace (S (List.length h) + i - List.length h) with (S i) by lia. simpl.
    now apply nth_error_cells.
  - intros l Hl Hne. rewrite nth_error_upd_other by exact Hne.
    now apply nth_error_app1.
Qed.

(** [v[index % v.length]] on an array of [k > 0] elements. *)
Lemma cyc_at_array h v ps i :
  array_elems h v = Some ps -> 0 < List.length ps ->
  cyc_at h v i = Some (nth (i mod List.length ps) ps undef).
Proof.
  intros Hps Hk. destruct v as [p|l]; [discriminate|]. simpl in Hps.
  destruct (nth_error h l) as [o|] eqn:Hl; [|discriminate].
  unfold cyc_at, obind, get_prop, get_idx. rewrite Hl, Hps. simpl String.eqb. cbv iota.
  assert (Hz : Z.eqb (Z.of_nat (List.length ps)) 0 = false) by (apply Z.eqb_neq; lia).
  rewrite Hz. rewrite Z.rem_mod_nonneg by lia. rewrite <- Nat2Z.inj_mod.
  assert (Hm : i mod List.length ps < List.length ps) by (apply Nat.mod_upper_bound; lia).
  assert (Hb : ((0 <=? Z.of_nat (i mod List.length ps)) &&
                (Z.of_nat (i mod List.length ps) <? Z.of_nat (List.length ps)))%Z = true)
    by (apply andb_true_intro; split; [apply Z.leb_le | apply Z.ltb_lt]; lia).
  rewrite Hb, Nat2Z.id. reflexivity.
Qed.

Lemma cyc_at_array_some h v ps i : array_elems h v = Some ps -> cyc_at h v i <> None.
Proof.
  intros Hps. destruct v as [p|l]; [discriminate|]. simpl in Hps.
  destruct (nth_error h l) as [o|] eqn:Hl; [|discriminate].
  unfold cyc_at, obind, get_prop, get_idx. rewrite Hl, Hps. simpl String.eqb. cbv iota.
  destruct (Z.eqb _ 0); [|destruct (_ && _)%Z]; discriminate.
Qed.

Lemma colors_hook_closed colors h chart d od a es :
  get_prop h chart "data" = Some (VRef d) -> nth_error h d = Some od ->
  get_prop h (VRef d) "datasets" = Some (VRef a) -> array_elems h (VRef a) = Some es ->
  Forall (valid h) es -> (forall i, cyc_at h colors i <> None) ->
  colors_hook colors h chart = Some (remapped h d od (color_obj h colors) es, chart).
Proof.
  intros Hdata Hd Hds Hes Hv Hc. unfold colors_hook.
  assert (Ho : opt_datasets h chart = Some (VRef a))
    by (unfold opt_datasets; rewrite Hdata; exact Hds).
  rewrite Ho. cbn [obind truthy].
  eapply (remap_closed h chart d od a es _ (color_obj h colors) Hdata Hd Hds Hes).
  intros h' e j E Hin.
  assert (E0 : ext h h') by (eapply ext_trans; [apply (ext_alloc h (array []))|exact E]).
  destruct (cyc_at h colors j) as [c|] eqn:Hcj; [|exfalso; exact (Hc j Hcj)].
  rewrite (cyc_at_ext h h' colors j c E0 Hcj). cbn [obind].
  rewrite (spread_fields_ext h h' e E0) by (rewrite Forall_forall in Hv; auto).
  unfold color_obj. rewrite Hcj. reflexivity.
Qed.

Lemma nth_map_VRef_seq s n i : i < n -> nth i (map VRef (seq s n)) undef = VRef (s + i).
Proof.
  intros Hi. rewrite (nth_indep _ undef (VRef 0)) by (rewrite length_map, length_seq; lia).
  rewrite map_nth, seq_nth by lia. reflexivity.
Qed.

Lemma color_obj_fields h colors e i k :
  get_field (props (color_obj h colors e i)) k =
  let c := match cyc_at h colors i with Some c => c | None => undef end in
  if String.eqb k "backgroundColor" then Some c
  else if String.eqb k "borderColor" then Some c
  else get_field (assign [] (spread_fields h e)) k.
Proof. unfold color_obj. simpl props. now rewrite !get_set_field. Qed.

Lemma spread_record h e o : record_at h e o -> spread_fields h e = props o.
Proof. intros (l & -> & Hl & He). simpl. now rewrite Hl, He. Qed.

Lemma record_valid h e o : record_at h e o -> valid h e.
Proof. intros (l & -> & Hl & _). simpl. apply nth_error_Some. now rewrite Hl. Qed.

(* ------------------------------------------------------------------ *)
(** ** The colors hook *)

(** C1: [colors(palette?)] registers a hook over the given palette, or the
    process-wide default palette when none is given.  For a configuration
    whose [data.datasets] is an array of [n] entries and a palette array of
    [k > 0] colors, the hook returns the configuration with a
    [data.datasets] of [n] entries whose entry [i] has [borderColor] and
    [backgroundColor] both equal to [palette[i mod k]]. *)
Theorem colors_cycles_palette colorPalette colors st h chart d od a es ps :
  let pal := default colors colorPalette in
  get_prop h chart "data" = Some (VRef d) -> nth_error h d = Some od ->
  get_prop h (VRef d) "datasets" = Some (VRef a) -> array_elems h (VRef a) = Some es ->
  Forall (valid h) es ->
  array_elems h pal = Some ps -> 0 < List.length ps ->
  reg_colors colorPalette colors st = (fst st, snd st ++ [HColors pal]) /\
  reg_colors colorPalette undef st = (fst st, snd st ++ [HColors colorPalette]) /\
  exists h' a' es',
    run_hook (HColors pal) h chart = Some (h', chart) /\
    opt_datasets h' chart = Some (VRef a') /\
    array_elems h' (VRef a') = Some es' /\
    List.length es' = List.length es /\
    forall i, i < List.length es ->
      exists l o, nth i es' undef = VRef l /\ nth_error h' l = Some o /\
        get_field (props o) "borderColor" = Some (nth (i mod List.length ps) ps undef) /\
        get_field (props o) "backgroundColor" = Some (nth (i mod List.length ps) ps undef).
Proof.
  intros pal Hdata Hd Hds Hes Hv Hpal Hk.
  split; [destruct st; reflexivity|]. split; [destruct st; reflexivity|].
  pose proof (remapped_facts h chart d od (color_obj h pal) es Hdata Hd) as (F1 & F2 & F3 & _).
  exists (remapped h d od (color_obj h pal) es), (List.length h),
    (map VRef (seq (S (List.length h)) (List.length es))).
  split; [apply (colors_hook_closed _ _ _ d od a es); auto; intros i; eapply cyc_at_array_some; eauto|].
  split; [exact F1|]. split; [exact F2|].
  split; [now rewrite length_map, length_seq|].
  intros i Hi. exists (S (List.length h) + i), (color_obj h pal (nth i es undef) i).
  split; [now apply nth_map_VRef_seq|]. split; [now apply F3|].
  rewrite !color_obj_fields, (cyc_at_array h pal ps i Hpal Hk). split; reflexivity.
Qed.

(** C10: for a configuration whose [data.datasets] is an array of [n]
    records and any palette array, the colors hook returns a
    [data.datasets] of [n] entries, each a new record holding the same
    value as the original dataset at every key other than [borderColor]
    and [backgroundColor], and holding both of those two keys. *)
Theorem colors_keeps_other_fields colors h chart d od a es ps :
  get_prop h chart "data" = Some (VRef d) -> nth_error h d = Some od ->
  get_prop h (VRef d) "datasets" = Some (VRef a) -> array_elems h (VRef a) = Some es ->
  Forall (valid h) es -> array_elems h colors = Some ps ->
  exists h' a' es',
    run_hook (HColors colors) h chart = Some (h', chart) /\
    opt_datasets h' chart = Some (VRef a') /\
    array_elems h' (VRef a') = Some es' /\
    List.length es' = List.length es /\
    forall i o, i < List.length es -> record_at h (nth i es undef) o ->
      NoDup (map fst (props o)) ->
      exists l o', nth i es' undef = VRef l /\ nth_error h' l = Some o' /\ elems o' = None /\
        get_field (props o') "borderColor" <> None /\
        get_field (props o') "backgroundColor" <> None /\
        forall k, k <> "borderColor" -> k <> "backgroundColor" ->
          get_field (props o') k = get_field (props o) k.
Proof.
  intros Hdata Hd Hds Hes Hv Hpal.
  pose proof (remapped_facts h chart d od (color_obj h colors) es Hdata Hd) as (F1 & F2 & F3 & _).
  exists (remapped h d od (color_obj h colors) es), (List.length h),
    (map VRef (seq (S (List.length h)) (List.length es))).
  split; [apply (colors_hook_closed _ _ _ d od a es); auto; intros i; eapply cyc_at_array_some; eauto|].
  split; [exact F1|]. split; [exact F2|].
  split; [now rewrite length_map, length_seq|].
  intros i o Hi Hr Hnd. exists (S (List.length h) + i), (color_obj h colors (nth i es undef) i).
  split; [now apply nth_map_VRef_seq|]. split; [now apply F3|]. split; [reflexivity|].
  rewrite !color_obj_fields. cbv zeta.
  split; [destruct (cyc_at _ _ _); simpl; discriminate|].
  split; [destruct (cyc_at _ _ _); simpl; discriminate|].
  intros k Hk1 Hk2. apply String.eqb_neq in Hk1, Hk2. rewrite color_obj_fields. cbv zeta.
  rewrite Hk1, Hk2.
  rewrite (spread_record h _ o Hr), get_field_assign by exact Hnd.
  destruct (get_field (props o) k); reflexivity.
Qed.

Lemma colors_cycles_palette_witness :
  exists h' a' es',
    run_hook (HColors (VRef 6)) (ds_heap 3 ++ [array [vstr "red"; vstr "blue"]]) (ds_chart 3) =
      Some (h', ds_chart 3) /\
    opt_datasets h' (ds_chart 3) = Some (VRef a') /\
    array_elems h' (VRef a') = Some es' /\ List.length es' = 3 /\
    exists l o, nth 2 es' undef = VRef l /\ nth_error h' l = Some o /\
      get_field (props o) "borderColor" = Some (vstr "red") /\
      get_field (props o) "backgroundColor" = Some (vstr "red").
Proof.
  pose proof (colors_cycles_palette (VRef 6) undef ([], [])
                (ds_heap 3 ++ [array [vstr "red"; vstr "blue"]]) (ds_chart 3)
                4 (plain [("datasets", VRef 3)]) 3 [VRef 0; VRef 1; VRef 2]
                [vstr "red"; vstr "blue"]) as T.
  cbv zeta in T.
  destruct T as (_ & _ & h' & a' & es' & E1 & E2 & E3 & E4 & E5);
    [reflexivity | reflexivity | reflexivity | reflexivity
    | repeat constructor; simpl; lia | reflexivity | simpl; lia |].
  exists h', a', es'. split; [exact E1|]. split; [exact E2|]. split; [exact E3|].
  split; [exact E4|]. exact (E5 2 (Nat.lt_succ_diag_r 2)).
Defined.

Lemma colors_keeps_other_fields_witness :
  exists h' a' es',
    run_hook (HColors (VRef 6)) (ds_heap 3 ++ [array [vstr "red"; vstr "blue"]]) (ds_chart 3) =
      Some (h', ds_chart 3) /\
    opt_datasets h' (ds_chart 3) = Some (VRef a') /\
    array_elems h' (VRef a') = Some es' /\ List.length es' = 3 /\
    exists l o', nth 0 es' undef = VRef l /\ nth_error h' l = Some o' /\
      get_field (props o') "label" = Some (vnum 0).
Proof.
  pose proof (colors_keeps_other_fields (VRef 6)
                (ds_heap 3 ++ [array [vstr "red"; vstr "blue"]]) (ds_chart 3)
                4 (plain [("datasets", VRef 3)]) 3 [VRef 0; VRef 1; VRef 2]
                [vstr "red"; vstr "blue"]) as T.
  destruct T as (h' & a' & es' & E1 & E2 & E3 & E4 & E5);
    [reflexivity | reflexivity | reflexivity | reflexivity
    | repeat constructor; simpl; lia | reflexivity |].
  exists h', a', es'. split; [exact E1|]. split; [exact E2|]. split; [exact E3|].
  split; [exact E4|].
  destruct (E5 0 (plain [("label", vnum 0)])) as (l & o' & G1 & G2 & _ & _ & _ & G3);
    [simpl; lia | exists 0; repeat split | repeat constructor; simpl; tauto |].
  exists l, o'. split; [exact G1|]. split; [exact G2|].
  rewrite G3 by discriminate. reflexivity.
Defined.

(* ------------------------------------------------------------------ *)
(** ** The datasets hook *)

Lemma array_elems_upd h l o k x v :
  nth_error h l = Some o -> array_elems (upd_prop h l o k x) v = array_elems h v.
Proof.
  intros Hl. destruct v as [p|l']; [reflexivity|]. simpl. unfold upd_prop.
  rewrite nth_error_replace_nth.
  destruct (Nat.eqb_spec l' l) as [->|]; [|reflexivity].
  assert (Hlt : l < List.length h) by (apply nth_error_Some; now rewrite Hl).
  apply Nat.ltb_lt in Hlt. now rewrite Hlt, Hl.
Qed.

Lemma spread_fields_upd_other h l o k x v :
  v <> VRef l -> spread_fields (upd_prop h l o k x) v = spread_fields h v.
Proof.
  intros Hv. destruct v as [p|l']; [reflexivity|]. simpl.
  rewrite nth_error_upd_other by congruence. reflexivity.
Qed.

Lemma valid_upd h l o k x v : valid h v -> valid (upd_prop h l o k x) v.
Proof. destruct v; simpl; [auto|]. now rewrite length_upd_prop. Qed.

Lemma datasets_hook_closed t ts g h c oc d od1 a es :
  nth_error h c = Some oc ->
  get_prop h (VRef c) "data" = Some (VRef d) ->
  get_prop h (VRef d) "datasets" = Some (VRef a) -> array_elems h (VRef a) = Some es ->
  Forall (valid h) es ->
  array_elems h t = Some ts -> 0 < List.length ts -> Forall (valid h) ts ->
  nth_error (upd_prop h c oc "type" g) d = Some od1 ->
  datasets_hook t g h (VRef c) =
    Some (remapped (upd_prop h c oc "type" g) d od1 (ds_obj (upd_prop h c oc "type" g) ts) es,
          VRef c).
Proof.
  intros Hc Hdata Hds Hes Hv Hts Hm Hvt Hd1. unfold datasets_hook.
  rewrite (set_prop_ref h c oc _ _ Hc). cbn [obind].
  set (h1 := upd_prop h c oc "type" g).
  assert (Hdata1 : get_prop h1 (VRef c) "data" = Some (VRef d))
    by (unfold h1; rewrite get_prop_upd_other by (exact Hc || reflexivity); exact Hdata).
  assert (Hds1 : get_prop h1 (VRef d) "datasets" = Some (VRef a))
    by (unfold h1; rewrite get_prop_upd_other by (exact Hc || reflexivity); exact Hds).
  assert (Ho : opt_datasets h1 (VRef c) = Some (VRef a))
    by (unfold opt_datasets; rewrite Hdata1; exact Hds1).
  rewrite Ho. cbn [obind truthy].
  assert (Hes1 : array_elems h1 (VRef a) = Some es) by (unfold h1; now rewrite array_elems_upd).
  assert (Hts1 : array_elems h1 t = Some ts) by (unfold h1; now rewrite array_elems_upd).
  eapply (remap_closed h1 (VRef c) d od1 a es _ (ds_obj h1 ts) Hdata1 Hd1 Hds1 Hes1).
  intros h' e j E Hin.
  assert (E0 : ext h1 h') by (eapply ext_trans; [apply (ext_alloc h1 (array []))|exact E]).
  rewrite (cyc_at_array h' t ts j (array_elems_ext _ _ _ _ E0 Hts1) Hm). cbn [obind].
  rewrite Forall_forall in Hv, Hvt.
  rewrite (spread_fields_ext h1 h' e E0) by (apply valid_upd; auto).
  rewrite (spread_fields_ext h1 h' (nth (j mod List.length ts) ts undef) E0)
    by (apply valid_upd, Hvt, nth_In, Nat.mod_upper_bound; lia).
  reflexivity.
Qed.

Lemma norm_rel_ext h h' e v : ext h h' -> norm_rel h e v -> norm_rel h' e v.
Proof.
  intros E. destruct e as [[| | | |s]|l]; simpl; auto.
  intros (l & -> & Hl). exists l. split; [reflexivity|]. eapply nth_error_ext; eauto.
Qed.

Lemma normalize_types_spec es : forall h,
  ext h (fst (normalize_types h es)) /\
  Forall2 (norm_rel (fst (normalize_types h es))) es (snd (normalize_types h es)).
Proof.
  induction es as [|e es IH]; intros h; simpl.
  - split; [apply ext_refl | constructor].
  - destruct e as [[| | | |s]|l]; simpl;
      match goal with |- context [normalize_types ?h' es] =>
        specialize (IH h'); destruct (normalize_types h' es) as [h2 vs]; simpl in *
      end;
      destruct IH as [E F];
      try (split; [exact E | constructor; [reflexivity | exact F]]).
    split; [eapply ext_trans; [apply ext_alloc | exact E]|].
    constructor; [|exact F]. exists (List.length h). split; [reflexivity|].
    now apply nth_error_last.
Qed.

Lemma reg_datasets_array types general h0 hs es :
  array_elems h0 types = Some es ->
  exists h0' ts,
    reg_datasets types general (h0, hs) =
      (h0', hs ++ [HDatasets (VRef (List.length h0)) (default general (vstr "bar"))]) /\
    ext h0 h0' /\ array_elems h0' (VRef (List.length h0)) = Some ts /\
    Forall2 (norm_rel h0') es ts.
Proof.
  intros Hes. unfold reg_datasets. rewrite Hes.
  pose proof (normalize_types_spec es (h0 ++ [array []])) as [E F].
  destruct (normalize_types (h0 ++ [array []]) es) as [h1 vs]. simpl in E, F.
  exists (replace_nth h1 (List.length h0) (array vs)), vs.
  assert (Hla : nth_error h1 (List.length h0) = Some (array [])) by (apply nth_error_last; exact E).
  assert (Hlt : List.length h0 < List.length h1) by (apply nth_error_Some; rewrite Hla; discriminate).
  split; [reflexivity|]. split; [|split].
  - destruct E as [x ->]. rewrite <- app_assoc, <- (Nat.add_0_r (List.length h0)), replace_nth_app_r.
    eexists. reflexivity.
  - simpl. rewrite nth_error_replace_nth, Nat.eqb_refl. apply Nat.ltb_lt in Hlt. now rewrite Hlt.
  - eapply Forall2_impl; [|exact F]. intros e v. destruct e as [[| | | |s]|l]; simpl; auto.
    intros (l & -> & Hl). exists l. split; [reflexivity|]. rewrite nth_error_replace_nth.
    destruct (Nat.eqb_spec l (List.length h0)) as [->|]; [rewrite Hla in Hl; unfold array, plain in Hl; congruence | exact Hl].
Qed.

(** C5: [datasets(types, general)] keeps, in a new array, each entry of an
    array [types] normalized ([x] a string becomes a new [{type: x}], other
    entries are kept), or the one-entry list [[{type: types}]] otherwise,
    and [general] defaulting to ['bar'].  For a configuration whose
    [data.datasets] is an array of [n] entries and a list of [m > 0]
    entries, its hook sets the top-level [type] to [general] and rebuilds
    dataset [i] as a new record holding the fields of the entry [i mod m]
    and, at every other key, the dataset's own value (when the dataset and
    the entry are records other than the configuration itself).  On the
    5-dataset example, [datasets(['line','bar'])] gives the types
    [line, bar, line, bar, line] and the top-level type ['bar']. *)
Theorem datasets_merges_types :
  (forall types general h0 hs es, array_elems h0 types = Some es ->
     exists h0' ts,
       reg_datasets types general (h0, hs) =
         (h0', hs ++ [HDatasets (VRef (List.length h0)) (default general (vstr "bar"))]) /\
       array_elems h0' (VRef (List.length h0)) = Some ts /\ Forall2 (norm_rel h0') es ts) /\
  (forall types general h0 hs, array_elems h0 types = None ->
     reg_datasets types general (h0, hs) =
       (h0 ++ [plain [("type", types)]; array [VRef (List.length h0)]],
        hs ++ [HDatasets (VRef (S (List.length h0))) (default general (vstr "bar"))])) /\
  (forall t g h c oc d a es ts,
     nth_error h c = Some oc ->
     get_prop h (VRef c) "data" = Some (VRef d) ->
     get_prop h (VRef d) "datasets" = Some (VRef a) -> array_elems h (VRef a) = Some es ->
     Forall (valid h) es ->
     array_elems h t = Some ts -> 0 < List.length ts -> Forall (valid h) ts ->
     exists h' a' es',
       run_hook (HDatasets t g) h (VRef c) = Some (h', VRef c) /\
       get_prop h' (VRef c) "type" = Some g /\
       opt_datasets h' (VRef c) = Some (VRef a') /\
       array_elems h' (VRef a') = Some es' /\ List.length es' = List.length es /\
       forall i o fo, i < List.length es ->
         record_at h (nth i es undef) o -> NoDup (map fst (props o)) ->
         nth i es undef <> VRef c ->
         record_at h (nth (i mod List.length ts) ts undef) fo -> NoDup (map fst (props fo)) ->
         nth (i mod List.length ts) ts undef <> VRef c ->
         exists l o', nth i es' undef = VRef l /\ nth_error h' l = Some o' /\
           forall k, get_field (props o') k =
             match get_field (props fo) k with
             | Some v => Some v
             | None => get_field (props o) k
             end) /\
  (exists h',
     apply_hooks (snd (reg_datasets (VRef 8) undef (ds_heap 5 ++ [array [vstr "line"; vstr "bar"]], [])))
       (fst (reg_datasets (VRef 8) undef (ds_heap 5 ++ [array [vstr "line"; vstr "bar"]], [])))
       (ds_chart 5) = Some (h', ds_chart 5) /\
     get_prop h' (ds_chart 5) "type" = Some (vstr "bar") /\
     dataset_types h' (ds_chart 5) 5 =
       map Some [vstr "line"; vstr "bar"; vstr "line"; vstr "bar"; vstr "line"]).
Proof.
  split; [|split; [|split]].
  - intros types general h0 hs es Hes.
    destruct (reg_datasets_array types general h0 hs es Hes) as (h0' & ts & R & _ & A & F).
    exists h0', ts. auto.
  - intros types general h0 hs Hn. unfold reg_datasets. rewrite Hn. simpl.
    rewrite <- app_assoc, length_app, Nat.add_1_r. reflexivity.
  - intros t g h c oc d a es ts Hc Hdata Hds Hes Hv Hts Hm Hvt.
    set (h1 := upd_prop h c oc "type" g).
    assert (Hd : nth_error h d <> None) by (simpl in Hds; destruct (nth_error h d); congruence).
    destruct (nth_error h1 d) as [od1|] eqn:Hd1;
      [|apply nth_error_None in Hd1; apply nth_error_Some in Hd; unfold h1 in Hd1;
        rewrite length_upd_prop in Hd1; lia].
    assert (Hdata1 : get_prop h1 (VRef c) "data" = Some (VRef d))
      by (unfold h1; rewrite get_prop_upd_other by (exact Hc || reflexivity); exact Hdata).
    pose proof (remapped_facts h1 (VRef c) d od1 (ds_obj h1 ts) es Hdata1 Hd1) as (F1 & F2 & F3 & _).
    exists (remapped h1 d od1 (ds_obj h1 ts) es), (List.length h1),
      (map VRef (seq (S (List.length h1)) (List.length es))).
    split; [exact (datasets_hook_closed t ts g h c oc d od1 a es Hc Hdata Hds Hes Hv Hts Hm Hvt Hd1)|].
    split.
    { unfold remapped.
      set (x := array (map VRef (seq (S (List.length h1)) (List.length es))) :: cells (ds_obj h1 ts) es 0).
      assert (E : ext h1 (h1 ++ x)) by (eexists; reflexivity).
      rewrite get_prop_upd_other by (exact (nth_error_ext _ _ _ _ E Hd1) || reflexivity).
      apply (get_prop_ext h1 _ _ _ _ E). unfold h1.
      apply get_prop_upd_same; [exact Hc | right; reflexivity]. }
    split; [exact F1|]. split; [exact F2|].
    split; [now rewrite length_map, length_seq|].
    intros i o fo Hi Hr Hnd Hne Hfr Hfnd Hfne.
    exists (S (List.length h1) + i), (ds_obj h1 ts (nth i es undef) i).
    split; [now apply nth_map_VRef_seq|]. split; [now apply F3|].
    intros k. unfold ds_obj, h1. simpl props.
    rewrite !spread_fields_upd_other by assumption.
    rewrite (spread_record h _ o Hr), (spread_record h _ fo Hfr).
    rewrite get_field_assign by exact Hfnd. rewrite get_field_assign by exact Hnd.
    destruct (get_field (props fo) k); [reflexivity|]. destruct (get_field (props o) k); reflexivity.
  - eexists. split; [vm_compute; reflexivity|]. split; vm_compute; reflexivity.
Qed.

Lemma datasets_merges_types_witness :
  (exists h0' ts,
     reg_datasets (VRef 0) undef ([array [vstr "line"]], []) =
       (h0', [HDatasets (VRef 1) (vstr "bar")]) /\
     array_elems h0' (VRef 1) = Some ts /\ Forall2 (norm_rel h0') [vstr "line"] ts) /\
  reg_datasets (vstr "pie") undef ([], []) =
    ([plain [("type", vstr "pie")]; array [VRef 0]], [HDatasets (VRef 1) (vstr "bar")]) /\
  exists h' a' es',
    run_hook (HDatasets (VRef 7) (vstr "bar"))
      (ds_heap 3 ++ [plain [("type", vstr "line")]; array [VRef 6]]) (VRef 5) = Some (h', VRef 5) /\
    get_prop h' (VRef 5) "type" = Some (vstr "bar") /\
    opt_datasets h' (VRef 5) = Some (VRef a') /\ array_elems h' (VRef a') = Some es' /\
    List.length es' = 3 /\
    exists l o', nth 1 es' undef = VRef l /\ nth_error h' l = Some o' /\
      get_field (props o') "type" = Some (vstr "line") /\
      get_field (props o') "label" = Some (vnum 1).
Proof.
  destruct datasets_merges_types as (P1 & P2 & P3 & _).
  split; [|split].
  - destruct (P1 (VRef 0) undef [array [vstr "line"]] [] [vstr "line"] eq_refl)
      as (h0' & ts & R & A & F).
    exists h0', ts. split; [exact R|]. split; [exact A | exact F].
  - exact (P2 (vstr "pie") undef [] [] eq_refl).
  - destruct (P3 (VRef 7) (vstr "bar") (ds_heap 3 ++ [plain [("type", vstr "line")]; array [VRef 6]])
                5 (plain [("type", vstr "line"); ("data", VRef 4)]) 4 3
                [VRef 0; VRef 1; VRef 2] [VRef 6])
      as (h' & a' & es' & E1 & E2 & E3 & E4 & E5 & E6);
      [reflexivity | reflexivity | reflexivity | reflexivity
      | repeat constructor; simpl; lia | reflexivity | simpl; lia
      | repeat constructor; simpl; lia |].
    exists h', a', es'. split; [exact E1|]. split; [exact E2|]. split; [exact E3|].
    split; [exact E4|]. split; [exact E5|].
    destruct (E6 1 (plain [("label", vnum 1)]) (plain [("type", vstr "line")]))
      as (l & o' & G1 & G2 & G3);
      [simpl; lia | exists 1; repeat split | repeat constructor; simpl; tauto | discriminate
      | exists 6; repeat split | repeat constructor; simpl; tauto | discriminate |].
    exists l, o'. split; [exact G1|]. split; [exact G2|].
    rewrite !G3. split; reflexivity.
Defined.

(* ------------------------------------------------------------------ *)
(** ** What the hooks write *)

Lemma alloc_tree_obj_fresh {A} (leaf : A -> val) h fs :
  exists h' l o, alloc_tree leaf h (TObj fs) = (h', VRef l) /\ ext h h' /\
    List.length h <= l /\ nth_error h' l = Some o /\ elems o = None.
Proof.
  rewrite alloc_tree_obj. pose proof (alloc_fields_ext leaf fs h) as E.
  destruct (alloc_fields leaf h fs) as [h1 kvs]. simpl in E |- *.
  exists (h1 ++ [plain kvs]), (List.length h1), (plain kvs).
  split; [reflexivity|]. split; [eapply ext_trans; [exact E | apply ext_alloc]|].
  split; [now apply ext_length|]. split; [|reflexivity].
  apply nth_error_last, ext_refl.
Qed.

Lemma mergeOptions_TObj b fs : exists gs, mergeOptions b (TObj fs) = TObj gs.
Proof. destruct b as [| |bs]; simpl; eauto. Qed.

(** A merge with a literal object builds a new object and modifies no
    existing one. *)
Lemma merge_lit_fresh h chart fs h' r :
  merge_lit h chart (TObj fs) = (h', r) -> ext h h' /\ exists l, r = VRef l /\ List.length h <= l.
Proof.
  unfold merge_lit, new_lit.
  destruct (alloc_tree_obj_fresh (fun v => v) h fs) as (h1 & l1 & o1 & E1 & X1 & L1 & N1 & O1).
  rewrite E1. unfold mergeOptionsH.
  assert (C : exists fs', config h1 (VRef l1) = TObj fs').
  { unfold config. destruct (List.length h1) as [|n] eqn:Hn.
    - assert (l1 < List.length h1) by (apply nth_error_Some; now rewrite N1). lia.
    - simpl. rewrite N1, O1. eauto. }
  destruct C as [fs' C]. rewrite C.
  destruct (mergeOptions_TObj (config h1 chart) fs') as [gs G]. rewrite G.
  destruct (alloc_tree_obj_fresh VP h1 gs) as (h2 & l2 & o2 & E2 & X2 & L2 & _ & _).
  rewrite E2. intros H; injection H as <- <-.
  split; [eapply ext_trans; eauto|]. exists l2. split; [reflexivity|].
  pose proof (ext_length _ _ X1). lia.
Qed.

Lemma nth_error_upd_same h l o k x :
  l < List.length h -> nth_error (upd_prop h l o k x) l = Some (mkobj (set_field (props o) k x) (elems o)).
Proof.
  intros Hl. unfold upd_prop. rewrite nth_error_replace_nth, Nat.eqb_refl.
  apply Nat.ltb_lt in Hl. now rewrite Hl.
Qed.

Lemma remapped_data h d od G es :
  d < List.length h ->
  nth_error (remapped h d od G es) d =
    Some (mkobj (set_field (props od) "datasets" (VRef (List.length h))) (elems od)).
Proof. intros Hd. apply nth_error_upd_same. rewrite length_app. lia. Qed.

Lemma fresh_refs s n m :
  m <= s -> Forall (fun v => exists l, v = VRef l /\ m <= l) (map VRef (seq s n)).
Proof.
  intros Hm. rewrite Forall_forall. intros v Hin. apply in_map_iff in Hin as (l & <- & Hl).
  apply in_seq in Hl. exists l. split; [reflexivity | lia].
Qed.

Lemma cyc_at_empty h lp i : nth_error h lp = Some (array []) -> cyc_at h (VRef lp) i = Some undef.
Proof. intros Hl. unfold cyc_at, obind, get_prop. rewrite Hl. reflexivity. Qed.

Lemma nth_nil_undef n : nth n (@nil val) undef = undef.
Proof. destruct n; reflexivity. Qed.

Lemma datasets_hook_closed_empty lt g h c oc d od1 a es :
  nth_error h c = Some oc -> nth_error h lt = Some (array []) -> lt <> c ->
  get_prop h (VRef c) "data" = Some (VRef d) ->
  get_prop h (VRef d) "datasets" = Some (VRef a) -> array_elems h (VRef a) = Some es ->
  Forall (valid h) es ->
  nth_error (upd_prop h c oc "type" g) d = Some od1 ->
  datasets_hook (VRef lt) g h (VRef c) =
    Some (remapped (upd_prop h c oc "type" g) d od1 (ds_obj (upd_prop h c oc "type" g) []) es,
          VRef c).
Proof.
  intros Hc Hlt Hne Hdata Hds Hes Hv Hd1. unfold datasets_hook.
  rewrite (set_prop_ref h c oc _ _ Hc). cbn [obind].
  set (h1 := upd_prop h c oc "type" g).
  assert (Hdata1 : get_prop h1 (VRef c) "data" = Some (VRef d))
    by (unfold h1; rewrite get_prop_upd_other by (exact Hc || reflexivity); exact Hdata).
  assert (Hds1 : get_prop h1 (VRef d) "datasets" = Some (VRef a))
    by (unfold h1; rewrite get_prop_upd_other by (exact Hc || reflexivity); exact Hds).
  assert (Ho : opt_datasets h1 (VRef c) = Some (VRef a))
    by (unfold opt_datasets; rewrite Hdata1; exact Hds1).
  rewrite Ho. cbn [obind truthy].
  assert (Hes1 : array_elems h1 (VRef a) = Some es) by (unfold h1; now rewrite array_elems_upd).
  assert (Hlt1 : nth_error h1 lt = Some (array [])) by (unfold h1; now rewrite nth_error_upd_other).
  eapply (remap_closed h1 (VRef c) d od1 a es _ (ds_obj h1 []) Hdata1 Hd1 Hds1 Hes1).
  intros h' e j E Hin.
  assert (E0 : ext h1 h') by (eapply ext_trans; [apply (ext_alloc h1 (array []))|exact E]).
  rewrite (cyc_at_empty h' lt j (nth_error_ext _ _ _ _ E0 Hlt1)). cbn [obind].
  rewrite Forall_forall in Hv.
  rewrite (spread_fields_ext h1 h' e E0) by (apply valid_upd; auto).
  unfold ds_obj. destruct (j mod _); reflexivity.
Qed.

(** C3 (amended): the hooks of [responsive], [legend], [displayAxes],
    [padding], [title] and [beginAtZero] modify no existing object and
    return a new one.  The hooks of [colors] and [datasets] return the very
    object they are given: on a configuration with a [data.datasets] array
    they store a new array of new dataset objects in the data block's
    [datasets], [datasets] also sets the configuration's own [type], and no
    other existing object is modified.  [colors] is stated for a palette
    array, its declared type; [datasets] for every list it can have
    registered: a non-empty normalized array, or the new empty array of
    [datasets([])]. *)
Theorem hooks_frame :
  (forall k h chart h' r, merge_hook k = true -> run_hook k h chart = Some (h', r) ->
     ext h h' /\ exists l, r = VRef l /\ List.length h <= l) /\
  (forall colors h chart d od a es ps,
     get_prop h chart "data" = Some (VRef d) -> nth_error h d = Some od ->
     get_prop h (VRef d) "datasets" = Some (VRef a) -> array_elems h (VRef a) = Some es ->
     Forall (valid h) es -> array_elems h colors = Some ps ->
     exists h' a' es',
       run_hook (HColors colors) h chart = Some (h', chart) /\
       (forall l, l < List.length h -> l <> d -> nth_error h' l = nth_error h l) /\
       nth_error h' d = Some (mkobj (set_field (props od) "datasets" (VRef a')) (elems od)) /\
       List.length h <= a' /\ array_elems h' (VRef a') = Some es' /\
       Forall (fun v => exists l, v = VRef l /\ List.length h <= l) es') /\
  (forall t g h c oc d a es ts,
     nth_error h c = Some oc ->
     get_prop h (VRef c) "data" = Some (VRef d) ->
     get_prop h (VRef d) "datasets" = Some (VRef a) -> array_elems h (VRef a) = Some es ->
     Forall (valid h) es ->
     (array_elems h t = Some ts /\ 0 < List.length ts /\ Forall (valid h) ts) \/
     (exists lt, t = VRef lt /\ nth_error h lt = Some (array [])) ->
     exists h' od1 a' es',
       run_hook (HDatasets t g) h (VRef c) = Some (h', VRef c) /\
       (forall l, l < List.length h -> l <> c -> l <> d -> nth_error h' l = nth_error h l) /\
       (c <> d -> nth_error h' c = Some (mkobj (set_field (props oc) "type" g) (elems oc))) /\
       nth_error (upd_prop h c oc "type" g) d = Some od1 /\
       nth_error h' d = Some (mkobj (set_field (props od1) "datasets" (VRef a')) (elems od1)) /\
       List.length h <= a' /\ array_elems h' (VRef a') = Some es' /\
       Forall (fun v => exists l, v = VRef l /\ List.length h <= l) es').
Proof.
  split; [|split].
  - intros k h chart h' r Hk Hr.
    destruct k; simpl in Hk, Hr; try discriminate;
      try (destruct (truthy _)); injection Hr as Hr; eapply merge_lit_fresh; exact Hr.
  - intros colors h chart d od a es ps Hdata Hd Hds Hes Hv Hpal.
    assert (Hlt : d < List.length h) by (apply nth_error_Some; now rewrite Hd).
    pose proof (remapped_facts h chart d od (color_obj h colors) es Hdata Hd) as (_ & F2 & _ & F4).
    exists (remapped h d od (color_obj h colors) es), (List.length h),
      (map VRef (seq (S (List.length h)) (List.length es))).
    split; [apply (colors_hook_closed _ _ _ d od a es); auto; intros i; eapply cyc_at_array_some; eauto|].
    split; [exact F4|]. split; [now apply remapped_data|].
    split; [lia|]. split; [exact F2|]. apply fresh_refs. lia.
  - intros t g h c oc d a es ts Hc Hdata Hds Hes Hv Ht.
    set (h1 := upd_prop h c oc "type" g).
    assert (Hlen : List.length h1 = List.length h) by apply length_upd_prop.
    assert (Hd : nth_error h d <> None) by (simpl in Hds; destruct (nth_error h d); congruence).
    assert (Hlt : d < List.length h) by now apply nth_error_Some.
    assert (Hclt : c < List.length h) by (apply nth_error_Some; now rewrite Hc).
    destruct (nth_error h1 d) as [od1|] eqn:Hd1;
      [|apply nth_error_None in Hd1; lia].
    assert (Hdata1 : get_prop h1 (VRef c) "data" = Some (VRef d))
      by (unfold h1; rewrite get_prop_upd_other by (exact Hc || reflexivity); exact Hdata).
    assert (Hrun : exists ts', datasets_hook t g h (VRef c) =
                     Some (remapped h1 d od1 (ds_obj h1 ts') es, VRef c)).
    { destruct Ht as [(Hts & Hm & Hvt) | (lt & -> & Hlt0)].
      - exists ts. exact (datasets_hook_closed t ts g h c oc d od1 a es Hc Hdata Hds Hes Hv Hts Hm Hvt Hd1).
      - exists []. assert (Hne : lt <> c).
        { intros <-. rewrite Hc in Hlt0. injection Hlt0 as ->. simpl in Hdata. rewrite Hc in Hdata.
          discriminate. }
        exact (datasets_hook_closed_empty lt g h c oc d od1 a es Hc Hlt0 Hne Hdata Hds Hes Hv Hd1). }
    destruct Hrun as [ts' Hrun].
    pose proof (remapped_facts h1 (VRef c) d od1 (ds_obj h1 ts') es Hdata1 Hd1) as (_ & F2 & _ & F4).
    exists (remapped h1 d od1 (ds_obj h1 ts') es), od1, (List.length h1),
      (map VRef (seq (S (List.length h1)) (List.length es))).
    split; [exact Hrun|].
    split.
    { intros l Hl Hne1 Hne2. rewrite F4 by lia. unfold h1. now apply nth_error_upd_other. }
    split.
    { intros Hne. rewrite F4 by lia. unfold h1. now apply nth_error_upd_same. }
    split; [reflexivity|]. split; [apply remapped_data; lia|].
    split; [lia|]. split; [exact F2|]. apply fresh_refs. lia.
Qed.

Lemma hooks_frame_witness :
  (exists h' r,
     run_hook (HPadding (vnum 5)) (ds_heap 2) (ds_chart 2) = Some (h', r) /\
     ext (ds_heap 2) h' /\ exists l, r = VRef l /\ 5 <= l) /\
  (exists h' a' es',
     run_hook (HColors (VRef 6)) (ds_heap 3 ++ [array [vstr "red"; vstr "blue"]]) (ds_chart 3) =
       Some (h', ds_chart 3) /\
     nth_error h' 0 = Some (plain [("label", vnum 0)]) /\ 7 <= a' /\
     array_elems h' (VRef a') = Some es') /\
  (exists h' od1 a' es',
     run_hook (HDatasets (VRef 7) (vstr "bar"))
       (ds_heap 3 ++ [plain [("type", vstr "line")]; array [VRef 6]]) (VRef 5) = Some (h', VRef 5) /\
     nth_error h' 0 = Some (plain [("label", vnum 0)]) /\
     nth_error h' 5 = Some (plain [("type", vstr "bar"); ("data", VRef 4)]) /\
     nth_error h' 4 = Some (mkobj (set_field (props od1) "datasets" (VRef a')) (elems od1)) /\
     8 <= a' /\ array_elems h' (VRef a') = Some es').
Proof.
  destruct hooks_frame as (P1 & P2 & P3).
  split; [|split].
  - exists (fst (merge_lit (ds_heap 2) (ds_chart 2)
             (TObj [("options", TObj [("layout", TObj [("padding", TLeaf (vnum 5))])])]))),
      (snd (merge_lit (ds_heap 2) (ds_chart 2)
             (TObj [("options", TObj [("layout", TObj [("padding", TLeaf (vnum 5))])])]))).
    split; [reflexivity|].
    exact (P1 (HPadding (vnum 5)) (ds_heap 2) (ds_chart 2) _ _ eq_refl eq_refl).
  - destruct (P2 (VRef 6) (ds_heap 3 ++ [array [vstr "red"; vstr "blue"]]) (ds_chart 3)
                4 (plain [("datasets", VRef 3)]) 3 [VRef 0; VRef 1; VRef 2]
                [vstr "red"; vstr "blue"])
      as (h' & a' & es' & E1 & E2 & _ & E4 & E5 & _);
      [reflexivity | reflexivity | reflexivity | reflexivity
      | repeat constructor; simpl; lia | reflexivity |].
    exists h', a', es'. split; [exact E1|]. split; [rewrite E2 by (simpl; lia); reflexivity|].
    split; [exact E4 | exact E5].
  - destruct (P3 (VRef 7) (vstr "bar") (ds_heap 3 ++ [plain [("type", vstr "line")]; array [VRef 6]])
                5 (plain [("type", vstr "line"); ("data", VRef 4)]) 4 3
                [VRef 0; VRef 1; VRef 2] [VRef 6])
      as (h' & od1 & a' & es' & E1 & E2 & E3 & _ & E5 & E6 & E7 & _);
      [reflexivity | reflexivity | reflexivity | reflexivity
      | repeat constructor; simpl; lia
      | left; split; [reflexivity | split; [simpl; lia | repeat constructor; simpl; lia]] |].
    exists h', od1, a', es'. split; [exact E1|].
    split; [rewrite E2 by (simpl; lia); reflexivity|].
    split; [rewrite E3 by lia; reflexivity|].
    split; [exact E5|]. split; [exact E6 | exact E7].
Defined.

Lemma opt_datasets_upd h l o k x chart :
  nth_error h l = Some o -> String.eqb "data" k = false -> String.eqb "datasets" k = false ->
  opt_datasets (upd_prop h l o k x) chart = opt_datasets h chart.
Proof.
  intros Hl Hk1 Hk2. unfold opt_datasets.
  rewrite (get_prop_upd_other h l o k x chart "data" Hl Hk1).
  destruct (get_prop h chart "data") as [data|]; [|reflexivity]. cbn [obind].
  destruct data as [[| | | |]|]; try reflexivity; apply get_prop_upd_other; assumption.
Qed.

(** C4 (amended): when [chart.data?.datasets] is absent (or falsy), the hook
    of [colors] returns the configuration it is given and modifies
    nothing, while the hook of [datasets] still sets the configuration's
    [type] to [general]: it modifies that one property and nothing else.
    Neither throws. *)
Theorem per_dataset_hooks_without_datasets :
  (forall colors h chart ds,
     opt_datasets h chart = Some ds -> truthy ds = false ->
     run_hook (HColors colors) h chart = Some (h, chart)) /\
  (forall t g h c oc ds,
     nth_error h c = Some oc -> opt_datasets h (VRef c) = Some ds -> truthy ds = false ->
     run_hook (HDatasets t g) h (VRef c) = Some (upd_prop h c oc "type" g, VRef c) /\
     get_prop (upd_prop h c oc "type" g) (VRef c) "type" = Some g /\
     (forall k, k <> "type" ->
        get_prop (upd_prop h c oc "type" g) (VRef c) k = get_prop h (VRef c) k) /\
     (forall l, l <> c -> nth_error (upd_prop h c oc "type" g) l = nth_error h l)).
Proof.
  split.
  - intros colors h chart ds Ho Hf. simpl. unfold colors_hook. rewrite Ho. cbn [obind].
    now rewrite Hf.
  - intros t g h c oc ds Hc Ho Hf.
    split; [|split; [|split]].
    + simpl. unfold datasets_hook. rewrite (set_prop_ref h c oc _ _ Hc). cbn [obind].
      rewrite opt_datasets_upd by (exact Hc || reflexivity). rewrite Ho. cbn [obind].
      now rewrite Hf.
    + apply get_prop_upd_same; [exact Hc | right; reflexivity].
    + intros k Hk. apply get_prop_upd_other; [exact Hc|]. now apply String.eqb_neq.
    + intros l Hl. now apply nth_error_upd_other.
Qed.

Lemma per_dataset_hooks_without_datasets_witness :
  run_hook (HColors (VRef 1)) [plain []; array [vstr "red"]] (VRef 0) =
    Some ([plain []; array [vstr "red"]], VRef 0) /\
  run_hook (HDatasets (VRef 1) (vstr "bar")) [plain [("type", vstr "pie")]; array [VRef 0]] (VRef 0) =
    Some (upd_prop [plain [("type", vstr "pie")]; array [VRef 0]] 0 (plain [("type", vstr "pie")])
            "type" (vstr "bar"), VRef 0) /\
  get_prop (upd_prop [plain [("type", vstr "pie")]; array [VRef 0]] 0 (plain [("type", vstr "pie")])
              "type" (vstr "bar")) (VRef 0) "type" = Some (vstr "bar").
Proof.
  destruct per_dataset_hooks_without_datasets as [P1 P2].
  split; [exact (P1 (VRef 1) [plain []; array [vstr "red"]] (VRef 0) undef eq_refl eq_refl)|].
  destruct (P2 (VRef 1) (vstr "bar") [plain [("type", vstr "pie")]; array [VRef 0]] 0
              (plain [("type", vstr "pie")]) undef eq_refl eq_refl eq_refl) as (E1 & E2 & _).
  split; [exact E1 | exact E2].
Defined.

Lemma Forall2_nth_rel {X Y} (R : X -> Y -> Prop) xs ys dx dy :
  Forall2 R xs ys -> forall j, j < List.length xs -> R (nth j xs dx) (nth j ys dy).
Proof.
  induction 1 as [|x y xs ys Hxy _ IH]; intros j Hj; simpl in *; [lia|].
  destruct j; [exact Hxy | apply IH; lia].
Qed.

Ltac ext_solve :=
  simpl; first [apply ext_refl | eexists; rewrite <- ?app_assoc; reflexivity].

(** C9 (amended): no registration method modifies an existing object; each
    only adds new objects to the heap.  A hook does not always keep a copy:
    [legend] (given an object) and [padding] (given an object) keep the
    caller's object itself, [colors] keeps the array it is given, or the
    shared [colorPalette] when called without one, and the list kept by
    [datasets] holds the caller's own objects at the positions of its
    non-string entries; a later change to such an object is seen when the
    chain is applied.  Normalized into new objects at registration: a
    boolean or omitted [legend] argument becomes [{display: b}] or [{}]; a
    string or omitted [title] argument becomes [{text: s, display: true}]
    or [{display: true}]; an object given to [title] is copied into a new
    object with [display] defaulting to [true]; a non-array [datasets]
    argument becomes a new array holding a new [{type: types}].
    [responsive], [displayAxes], [padding] and [beginAtZero] keep their
    arguments as given, with their defaults. *)
Theorem registration_frame :
  (forall p colors h hs, reg_colors p colors (h, hs) = (h, hs ++ [HColors (default colors p)])) /\
  (forall m h hs, fst (reg_responsive m (h, hs)) = h) /\
  (forall legend h hs, ext h (fst (reg_legend legend (h, hs)))) /\
  (forall display strict h hs, fst (reg_displayAxes display strict (h, hs)) = h) /\
  (forall value h hs, ext h (fst (reg_minimalist value (h, hs)))) /\
  (forall padding h hs, fst (reg_padding padding (h, hs)) = h) /\
  (forall types general h hs, ext h (fst (reg_datasets types general (h, hs)))) /\
  (forall title h hs, ext h (fst (reg_title title (h, hs)))) /\
  (forall b h hs, fst (reg_beginAtZero b (h, hs)) = h) /\
  (forall l h hs, reg_legend (VRef l) (h, hs) = (h, hs ++ [HLegend (VRef l)])) /\
  (forall l h hs, reg_padding (VRef l) (h, hs) = (h, hs ++ [HPadding (VRef l)])) /\
  (forall types general h hs es, array_elems h types = Some es ->
     exists h' ts,
       reg_datasets types general (h, hs) =
         (h', hs ++ [HDatasets (VRef (List.length h)) (default general (vstr "bar"))]) /\
       array_elems h' (VRef (List.length h)) = Some ts /\
       forall j l, nth j es undef = VRef l -> nth j ts undef = VRef l) /\
  (forall l h hs,
     reg_title (VRef l) (h, hs) =
       (h ++ [plain (assign [("display", vbool true)] (spread_fields h (VRef l)))],
        hs ++ [HTitle (VRef (List.length h))])) /\
  (forall b h hs,
     reg_legend (vbool b) (h, hs) =
       (h ++ [plain [("display", vbool b)]], hs ++ [HLegend (VRef (List.length h))])) /\
  (forall h hs, reg_legend undef (h, hs) = (h ++ [plain []], hs ++ [HLegend (VRef (List.length h))])) /\
  (forall s h hs,
     reg_title (vstr s) (h, hs) =
       (h ++ [plain [("text", vstr s); ("display", vbool true)]], hs ++ [HTitle (VRef (List.length h))])) /\
  (forall h hs,
     reg_title undef (h, hs) =
       (h ++ [plain []; plain [("display", vbool true)]], hs ++ [HTitle (VRef (S (List.length h)))])) /\
  (forall types general h hs, array_elems h types = None ->
     reg_datasets types general (h, hs) =
       (h ++ [plain [("type", types)]; array [VRef (List.length h)]],
        hs ++ [HDatasets (VRef (S (List.length h))) (default general (vstr "bar"))])) /\
  (forall m h hs, reg_responsive m (h, hs) = (h, hs ++ [HResponsive (default m (vbool true))])) /\
  (forall display strict h hs,
     reg_displayAxes display strict (h, hs) =
       (h, hs ++ [HDisplayAxes (default display (vbool true)) (default strict (vbool false))])) /\
  (forall padding h hs, reg_padding padding (h, hs) = (h, hs ++ [HPadding (default padding (vnum 5))])) /\
  (forall b h hs, reg_beginAtZero b (h, hs) = (h, hs ++ [HBeginAtZero (default b (vbool true))])).
Proof.
  split; [|split; [|split; [|split; [|split; [|split; [|split; [|split; [|split; [|split;
    [|split; [|split; [|split]]]]]]]]]]]].
  13: { intros l h hs. reflexivity. }
  13: { repeat split.
        - intros h hs. unfold reg_title. cbn [alloc]. simpl spread_fields.
          rewrite nth_error_app2, Nat.sub_diag by lia. simpl.
          rewrite <- app_assoc, length_app, Nat.add_1_r. reflexivity.
        - intros types general h hs Hn. unfold reg_datasets. rewrite Hn. simpl.
          rewrite <- app_assoc, length_app, Nat.add_1_r. reflexivity. }
  all: repeat split.
  - intros legend h hs. unfold reg_legend. destruct legend as [[| | | |]|]; ext_solve.
  - intros value h hs. unfold reg_minimalist. destruct (default value (vbool true)); ext_solve.
  - intros types general h hs. destruct (array_elems h types) as [es|] eqn:Hes.
    + destruct (reg_datasets_array types general h hs es Hes) as (h' & ts & R & E & _).
      now rewrite R.
    + unfold reg_datasets. rewrite Hes. ext_solve.
  - intros title h hs. unfold reg_title. destruct title as [[| | | |]|]; ext_solve.
  - intros types general h hs es Hes.
    destruct (reg_datasets_array types general h hs es Hes) as (h' & ts & R & _ & A & F).
    exists h', ts. split; [exact R|]. split; [exact A|].
    intros j l Hj.
    assert (Hlt : j < List.length es)
      by (destruct (Nat.lt_ge_cases j (List.length es)) as [|Hge]; [assumption|];
          rewrite nth_overflow in Hj by exact Hge; discriminate).
    pose proof (Forall2_nth_rel _ _ _ undef undef F j Hlt) as N.
    rewrite Hj in N. exact N.
Qed.

Lemma registration_frame_witness :
  reg_legend (VRef 0) ([plain [("display", vbool true)]], []) =
    ([plain [("display", vbool true)]], [HLegend (VRef 0)]) /\
  exists h' ts,
    reg_datasets (VRef 1) undef ([plain [("type", vstr "line")]; array [vstr "bar"; VRef 0]], []) =
      (h', [HDatasets (VRef 2) (vstr "bar")]) /\
    array_elems h' (VRef 2) = Some ts /\ nth 1 ts undef = VRef 0.
Proof.
  destruct registration_frame as (_ & _ & _ & _ & _ & _ & _ & _ & _ & L & _ & D & _).
  split; [exact (L 0 [plain [("display", vbool true)]] [])|].
  destruct (D (VRef 1) undef [plain [("type", vstr "line")]; array [vstr "bar"; VRef 0]] []
              [vstr "bar"; VRef 0] eq_refl) as (h' & ts & R & A & N).
  exists h', ts. split; [exact R|]. split; [exact A|]. exact (N 1 0 eq_refl).
Defined.

(* ------------------------------------------------------------------ *)
(** ** Reading configurations back *)

(** A value that reads completely reads the same with more fuel and in a
    bigger heap. *)
Lemma read_stable n : forall h h' v m,
  wf n h v = true -> ext h h' -> n <= m -> read m h' v = read n h v.
Proof.
  induction n as [|n IH]; intros h h' v m Hw E Hm;
    (destruct v as [p|l]; [destruct m; reflexivity|]); simpl in Hw; [discriminate|].
  destruct m as [|m]; [lia|]. simpl.
  destruct (nth_error h l) as [o|] eqn:Hl; [|discriminate].
  rewrite (nth_error_ext _ _ _ _ E Hl).
  destruct (elems o) as [es|].
  - f_equal. apply map_ext_in. intros v Hv. rewrite forallb_forall in Hw.
    apply (IH h); auto; lia.
  - f_equal. apply map_ext_in. intros [k v] Hv. rewrite forallb_forall in Hw.
    simpl. f_equal. apply (IH h); [apply (Hw (k, v) Hv) | exact E | lia].
Qed.

Lemma wf_mono n : forall h h' v m, wf n h v = true -> ext h h' -> n <= m -> wf m h' v = true.
Proof.
  induction n as [|n IH]; intros h h' v m Hw E Hm;
    (destruct v as [p|l]; [destruct m; reflexivity|]); simpl in Hw; [discriminate|].
  destruct m as [|m]; [lia|]. simpl.
  destruct (nth_error h l) as [o|] eqn:Hl; [|discriminate].
  rewrite (nth_error_ext _ _ _ _ E Hl).
  destruct (elems o) as [es|]; rewrite forallb_forall in Hw; apply forallb_forall.
  - intros v Hv. apply (IH h); auto; lia.
  - intros kv Hv. apply (IH h); auto; lia.
Qed.

Lemma lit_ok_mono n h h' (e : lit) : lit_ok n h e = true -> ext h h' -> lit_ok n h' e = true.
Proof.
  intros Ho E. induction e as [v|ts IH|fs IH] using tree_ind'; simpl in *.
  - eapply wf_mono; eauto.
  - rewrite forallb_forall in *. rewrite Forall_forall in IH. auto.
  - rewrite forallb_forall in *. rewrite Forall_forall in IH. auto.
Qed.

Lemma tdepth_children (ts : list (tree val)) k n :
  list_max (map tdepth ts) + k <= n -> Forall (fun t => tdepth t + k <= n) ts.
Proof.
  intros H. assert (H' : list_max (map tdepth ts) <= n - k) by lia.
  apply list_max_le, (Forall_map tdepth (fun d => d <= n - k)) in H'.
  eapply Forall_impl; [|exact H']. simpl. lia.
Qed.

Lemma tdepth_fields (fs : fields (tree val)) k n :
  list_max (map (fun kv => tdepth (snd kv)) fs) + k <= n ->
  Forall (fun kv => tdepth (snd kv) + k <= n) fs.
Proof.
  intros H. assert (H' : list_max (map (fun kv => tdepth (snd kv)) fs) <= n - k) by lia.
  apply list_max_le, (Forall_map (fun kv => tdepth (snd kv)) (fun d => d <= n - k)) in H'.
  eapply Forall_impl; [|exact H']. simpl. lia.
Qed.

(** A literal written to the heap reads back as itself, each captured value
    read as the tree it stands for. *)
Lemma read_new_lit k (e : lit) : forall h0 h h'' n,
  ext h0 h -> lit_ok k h0 e = true -> ext (fst (new_lit h e)) h'' -> tdepth e + k <= n ->
  read n h'' (snd (new_lit h e)) = tsubst (read k h0) e.
Proof.
  unfold new_lit. induction e as [v|ts IH|fs IH] using tree_ind'; intros h0 h h'' n E0 Ho Hx Hd.
  - simpl in *. apply read_stable; [exact Ho | eapply ext_trans; eauto | lia].
  - rewrite alloc_tree_arr in *.
    destruct (alloc_list (fun v => v) h ts) as [h1 vs] eqn:El. simpl in *.
    destruct n as [|n]; [lia|]. simpl. rewrite (nth_error_last _ _ _ Hx). simpl. f_equal.
    pose proof (tdepth_children ts k n ltac:(lia)) as Hd'.
    assert (Hx1 : ext h1 h'') by (eapply ext_trans; [apply ext_alloc | exact Hx]).
    rewrite forallb_forall in Ho.
    clear Hx Hd. revert h vs El E0. induction IH as [|t ts Ht _ IHts]; intros h vs El E0.
    + simpl in El. now inversion El.
    + simpl in El. inversion Hd' as [|? ? Hdt Hdts]; subst.
      destruct (alloc_tree (fun v => v) h t) as [h2 v] eqn:Et.
      destruct (alloc_list (fun v => v) h2 ts) as [h3 vs'] eqn:El2.
      pose proof (alloc_list_ext (fun v => v) ts h2) as E2. rewrite El2 in E2.
      pose proof (alloc_tree_grows (fun v => v) t h) as [E1 _]. rewrite Et in E1.
      inversion El; subst. simpl in *.
      f_equal.
      * change v with (snd (h2, v)). rewrite <- Et.
        apply Ht; [exact E0 | apply Ho; now left | | exact Hdt].
        rewrite Et. simpl. eapply ext_trans; eassumption.
      * eapply IHts; [intros x Hin; apply Ho; now right | exact Hdts | exact El2
                     | eapply ext_trans; eassumption].
  - rewrite alloc_tree_obj in *.
    destruct (alloc_fields (fun v => v) h fs) as [h1 kvs] eqn:El. simpl in *.
    destruct n as [|n]; [lia|]. simpl. rewrite (nth_error_last _ _ _ Hx). simpl. f_equal.
    pose proof (tdepth_fields fs k n ltac:(lia)) as Hd'.
    assert (Hx1 : ext h1 h'') by (eapply ext_trans; [apply ext_alloc | exact Hx]).
    rewrite forallb_forall in Ho.
    clear Hx Hd. revert h kvs El E0. induction IH as [|[key t] fs Ht _ IHfs]; intros h kvs El E0.
    + simpl in El. now inversion El.
    + simpl in El. inversion Hd' as [|? ? Hdt Hdfs]; subst. simpl in Ht, Hdt.
      destruct (alloc_tree (fun v => v) h t) as [h2 v] eqn:Et.
      destruct (alloc_fields (fun v => v) h2 fs) as [h3 kvs'] eqn:El2.
      pose proof (alloc_fields_ext (fun v => v) fs h2) as E2. rewrite El2 in E2.
      pose proof (alloc_tree_grows (fun v => v) t h) as [E1 _]. rewrite Et in E1.
      inversion El; subst. simpl in *.
      f_equal.
      * f_equal. change v with (snd (h2, v)). rewrite <- Et.
        apply Ht; [exact E0 | apply (Ho (key, t)); now left | | exact Hdt].
        rewrite Et. simpl. eapply ext_trans; eassumption.
      * eapply IHfs; [intros x Hin; apply Ho; now right | exact Hdfs | exact El2
                     | eapply ext_trans; eassumption].
Qed.

(** [mergeOptions(chart, literal)] reads as the merge of what [chart] and
    the literal read as, when both read completely. *)
Lemma config_merge_lit_wf h chart e :
  wf (List.length h) h chart = true -> lit_ok (List.length h) h e = true ->
  config (fst (merge_lit h chart e)) (snd (merge_lit h chart e)) =
    mergeOptions (config h chart) (tsubst (config h) e).
Proof.
  intros Hc He. unfold merge_lit.
  pose proof (alloc_tree_grows (fun v => v) e h) as [E G].
  pose proof (read_new_lit (List.length h) e h h (fst (new_lit h e)) (List.length (fst (new_lit h e)))
                (ext_refl h) He (ext_refl _)) as R.
  unfold new_lit in *. destruct (alloc_tree (fun v => v) h e) as [h1 f]. simpl in *.
  unfold mergeOptionsH. rewrite config_alloc_json.
  unfold config at 2 3. rewrite R by lia. unfold config.
  rewrite (read_stable (List.length h) h h1 chart (List.length h1) Hc E (ext_length _ _ E)).
  reflexivity.
Qed.

Lemma mergeOptions_leaf_base a f : mergeOptions (TLeaf a) f = f.
Proof. destruct f; reflexivity. Qed.

Lemma mergeOptions_onto_leaf b a : mergeOptions b (TLeaf a) = TLeaf a.
Proof. destruct b; reflexivity. Qed.

Lemma tpath_leaf k p a : tpath (k :: p) (TLeaf a) = None.
Proof. reflexivity. Qed.

(** Merging a one-path fragment: the value at the path is the merge of the
    base's value there (if any) with the fragment's. *)
Lemma merge_nest_at p v : forall b,
  tpath p (mergeOptions b (nest p v)) =
    Some (match tpath p b with Some bv => mergeOptions bv v | None => v end).
Proof.
  induction p as [|k p IH]; intros b; [reflexivity|].
  assert (Hfresh : tpath p (nest p v) = Some v).
  { rewrite <- (mergeOptions_leaf_base PUndef (nest p v)), IH.
    destruct p; simpl; [rewrite mergeOptions_leaf_base | ]; reflexivity. }
  destruct b as [a|ts|bs]; simpl nest.
  - rewrite mergeOptions_leaf_base. simpl. rewrite String.eqb_refl. exact Hfresh.
  - simpl. rewrite String.eqb_refl. exact Hfresh.
  - rewrite mergeOptions_obj. simpl. rewrite get_set_field, String.eqb_refl.
    destruct (get_field bs k) as [bv|]; [apply IH | exact Hfresh].
Qed.

(** ... and every path that parts from it keeps the base's value. *)
Lemma merge_nest_other p v : forall b q,
  diverges p q = true -> tpath q (mergeOptions b (nest p v)) = tpath q b.
Proof.
  induction p as [|k p IH]; intros b q Hd; [destruct q; discriminate|].
  destruct q as [|k' q]; [discriminate|]. simpl in Hd.
  destruct (String.eqb_spec k k') as [<-|Hne].
  - assert (Hfresh : tpath q (nest p v) = None).
    { rewrite <- (mergeOptions_leaf_base PUndef (nest p v)), IH by exact Hd.
      destruct q; [destruct p; discriminate | reflexivity]. }
    destruct b as [a|ts|bs]; simpl nest.
    + rewrite mergeOptions_leaf_base. simpl. rewrite String.eqb_refl. exact Hfresh.
    + simpl. rewrite String.eqb_refl. exact Hfresh.
    + rewrite mergeOptions_obj. simpl. rewrite get_set_field, String.eqb_refl.
      destruct (get_field bs k) as [bv|]; [apply IH; exact Hd | exact Hfresh].
  - apply String.eqb_neq in Hne. rewrite String.eqb_sym in Hne.
    destruct b as [a|ts|bs]; simpl nest.
    + rewrite mergeOptions_leaf_base. simpl. now rewrite Hne.
    + simpl. now rewrite Hne.
    + rewrite mergeOptions_obj. simpl. rewrite get_set_field, Hne. reflexivity.
Qed.

(** A merge hook whose literal is a one-path fragment: at the path the
    result holds the base's value merged with the fragment's, and every
    path that parts from it reads as in the base. *)
Lemma merge_lit_nest h chart e p v :
  wf (List.length h) h chart = true -> lit_ok (List.length h) h e = true ->
  tsubst (config h) e = nest p v ->
  tpath p (config (fst (merge_lit h chart e)) (snd (merge_lit h chart e))) =
    Some (match tpath p (config h chart) with Some bv => mergeOptions bv v | None => v end) /\
  (forall q, diverges p q = true ->
     tpath q (config (fst (merge_lit h chart e)) (snd (merge_lit h chart e))) =
       tpath q (config h chart)).
Proof.
  intros Hc He Hn. rewrite (config_merge_lit_wf h chart e Hc He), Hn. split.
  - apply merge_nest_at.
  - intros q Hq. apply merge_nest_other; exact Hq.
Qed.

(** An object of primitive properties at a known location reads as itself. *)
Lemma config_plain_prims h l fs :
  nth_error h l = Some (plain (map (fun kv => (fst kv, VP (snd kv))) fs)) ->
  wf (List.length h) h (VRef l) = true /\
  config h (VRef l) = TObj (map (fun kv => (fst kv, TLeaf (snd kv))) fs).
Proof.
  intros Hl. unfold config.
  assert (Hlt : l < List.length h) by (apply nth_error_Some; congruence).
  destruct (List.length h) as [|n]; [lia|]. simpl. rewrite Hl. simpl. split.
  - apply forallb_forall. intros kv Hin. apply in_map_iff in Hin as [kv' [<- _]]. destruct n; reflexivity.
  - rewrite map_map. f_equal. apply map_ext. intros. destruct n; reflexivity.
Qed.

Lemma wf_prim n h p : wf n h (VP p) = true.
Proof. destruct n; reflexivity. Qed.

Lemma config_prim h p : config h (VP p) = TLeaf p.
Proof. unfold config. destruct (List.length h); reflexivity. Qed.

Lemma apply_hooks_single k h c : apply_hooks [k] h c = run_hook k h c.
Proof. simpl. destruct (run_hook k h c) as [[h1 c1]|]; reflexivity. Qed.

(** X1: the hook of [responsive(m)], for a primitive [m], sets
    [options.maintainAspectRatio] to [m] ([true] when [m] is omitted) and
    leaves every path that does not go through it as it was. *)
Theorem responsive_sets_maintainAspectRatio p h0 h chart :
  wf (List.length h) h chart = true ->
  exists h' r,
    apply_hooks (snd (reg_responsive (VP p) (h0, []))) h chart = Some (h', r) /\
    tpath ["options"; "maintainAspectRatio"] (config h' r) =
      Some (TLeaf (match p with PUndef => PBool true | _ => p end)) /\
    (forall q, diverges ["options"; "maintainAspectRatio"] q = true ->
       tpath q (config h' r) = tpath q (config h chart)).
Proof.
  intros Hc. set (p' := match p with PUndef => PBool true | _ => p end).
  assert (Hd : default (VP p) (vbool true) = VP p') by (destruct p; reflexivity).
  set (e := TObj [("options", TObj [("maintainAspectRatio", TLeaf (VP p'))])] : lit).
  exists (fst (merge_lit h chart e)), (snd (merge_lit h chart e)). split.
  { unfold reg_responsive. cbn [snd app]. rewrite apply_hooks_single, Hd.
    cbn [run_hook]. now rewrite <- surjective_pairing. }
  destruct (merge_lit_nest h chart e ["options"; "maintainAspectRatio"] (TLeaf p') Hc)
    as [Ha Ho].
  - simpl. now rewrite wf_prim.
  - simpl. now rewrite config_prim.
  - split; [|exact Ho]. rewrite Ha. destruct (tpath _ (config h chart)); [|reflexivity].
    now rewrite mergeOptions_onto_leaf.
Qed.

Lemma responsive_sets_maintainAspectRatio_witness :
  wf (List.length (ds_heap 1)) (ds_heap 1) (ds_chart 1) = true /\
  exists h' r,
    apply_hooks (snd (reg_responsive (vbool false) ([], []))) (ds_heap 1) (ds_chart 1) = Some (h', r) /\
    tpath ["options"; "maintainAspectRatio"] (config h' r) = Some (TLeaf (PBool false)) /\
    (forall q, diverges ["options"; "maintainAspectRatio"] q = true ->
       tpath q (config h' r) = tpath q (config (ds_heap 1) (ds_chart 1))).
Proof.
  split; [vm_compute; reflexivity|].
  apply (responsive_sets_maintainAspectRatio (PBool false) [] (ds_heap 1) (ds_chart 1)).
  vm_compute. reflexivity.
Defined.

Lemma mergeOptions_onto_arr b ts : mergeOptions b (TArr ts) = TArr ts.
Proof. destruct b; reflexivity. Qed.

(** X2: [legend(b)] with a boolean registers the new object [{display: b}];
    its hook, run on a heap that still holds that object, sets
    [options.legend.display] to [b] and leaves every other path, the other
    keys of [options.legend] included, as it was. *)
Theorem legend_bool_sets_display b h0 h chart :
  ext (h0 ++ [plain [("display", vbool b)]]) h ->
  wf (List.length h) h chart = true ->
  reg_legend (vbool b) (h0, []) = (h0 ++ [plain [("display", vbool b)]], [HLegend (VRef (List.length h0))]) /\
  exists h' r,
    apply_hooks (snd (reg_legend (vbool b) (h0, []))) h chart = Some (h', r) /\
    tpath ["options"; "legend"; "display"] (config h' r) = Some (TLeaf (PBool b)) /\
    (forall q, diverges ["options"; "legend"; "display"] q = true ->
       tpath q (config h' r) = tpath q (config h chart)).
Proof.
  intros Hx Hc.
  assert (Hreg : reg_legend (vbool b) (h0, []) =
                 (h0 ++ [plain [("display", vbool b)]], [HLegend (VRef (List.length h0))]))
    by reflexivity.
  split; [exact Hreg|]. rewrite Hreg. cbn [snd].
  pose proof (nth_error_last _ _ _ Hx) as Hl.
  change (plain [("display", vbool b)])
    with (plain (map (fun kv => (fst kv, VP (snd kv))) [("display", PBool b)])) in Hl.
  destruct (config_plain_prims _ _ _ Hl) as [Hw Hcf].
  set (e := TObj [("options", TObj [("legend", TLeaf (VRef (List.length h0)))])] : lit).
  exists (fst (merge_lit h chart e)), (snd (merge_lit h chart e)). split.
  { rewrite apply_hooks_single. cbn [run_hook]. now rewrite <- surjective_pairing. }
  destruct (merge_lit_nest h chart e ["options"; "legend"; "display"] (TLeaf (PBool b)) Hc)
    as [Ha Ho].
  - simpl. now rewrite Hw.
  - simpl. now rewrite Hcf.
  - split; [|exact Ho]. rewrite Ha. destruct (tpath _ (config h chart)); [|reflexivity].
    now rewrite mergeOptions_onto_leaf.
Qed.

Lemma legend_bool_sets_display_witness :
  let h := ds_heap 1 ++ [plain [("display", vbool false)]] in
  ext (ds_heap 1 ++ [plain [("display", vbool false)]]) h /\
  wf (List.length h) h (ds_chart 1) = true /\
  reg_legend (vbool false) (ds_heap 1, []) = (ds_heap 1 ++ [plain [("display", vbool false)]], [HLegend (VRef 4)]) /\
  exists h' r,
    apply_hooks (snd (reg_legend (vbool false) (ds_heap 1, []))) h (ds_chart 1) = Some (h', r) /\
    tpath ["options"; "legend"; "display"] (config h' r) = Some (TLeaf (PBool false)) /\
    (forall q, diverges ["options"; "legend"; "display"] q = true ->
       tpath q (config h' r) = tpath q (config h (ds_chart 1))).
Proof.
  intros h. split; [apply ext_refl|]. split; [vm_compute; reflexivity|].
  apply (legend_bool_sets_display false (ds_heap 1) h (ds_chart 1));
    [apply ext_refl | vm_compute; reflexivity].
Defined.

(** X3: with a truthy [strict], the hook of [displayAxes(display, strict)]
    for a primitive [display] sets [options.scale.display] to [display]
    ([true] when omitted) and leaves every path that does not go through it,
    [options.scales] included, as it was. *)
Theorem displayAxes_strict_sets_scale p s h0 h chart :
  truthy (default s (vbool false)) = true ->
  wf (List.length h) h chart = true ->
  exists h' r,
    apply_hooks (snd (reg_displayAxes (VP p) s (h0, []))) h chart = Some (h', r) /\
    tpath ["options"; "scale"; "display"] (config h' r) =
      Some (TLeaf (match p with PUndef => PBool true | _ => p end)) /\
    (forall q, diverges ["options"; "scale"; "display"] q = true ->
       tpath q (config h' r) = tpath q (config h chart)).
Proof.
  intros Hs Hc. set (p' := match p with PUndef => PBool true | _ => p end).
  assert (Hd : default (VP p) (vbool true) = VP p') by (destruct p; reflexivity).
  set (e := TObj [("options", TObj [("scale", TObj [("display", TLeaf (VP p'))])])] : lit).
  exists (fst (merge_lit h chart e)), (snd (merge_lit h chart e)). split.
  { unfold reg_displayAxes. cbn [snd app]. rewrite apply_hooks_single, Hd.
    cbn [run_hook]. rewrite Hs. now rewrite <- surjective_pairing. }
  destruct (merge_lit_nest h chart e ["options"; "scale"; "display"] (TLeaf p') Hc)
    as [Ha Ho].
  - simpl. now rewrite wf_prim.
  - simpl. now rewrite config_prim.
  - split; [|exact Ho]. rewrite Ha. destruct (tpath _ (config h chart)); [|reflexivity].
    now rewrite mergeOptions_onto_leaf.
Qed.

Lemma displayAxes_strict_sets_scale_witness :
  truthy (default (vbool true) (vbool false)) = true /\
  wf (List.length (ds_heap 1)) (ds_heap 1) (ds_chart 1) = true /\
  exists h' r,
    apply_hooks (snd (reg_displayAxes (vbool false) (vbool true) ([], []))) (ds_heap 1) (ds_chart 1)
      = Some (h', r) /\
    tpath ["options"; "scale"; "display"] (config h' r) = Some (TLeaf (PBool false)) /\
    (forall q, diverges ["options"; "scale"; "display"] q = true ->
       tpath q (config h' r) = tpath q (config (ds_heap 1) (ds_chart 1))).
Proof.
  split; [reflexivity|]. split; [vm_compute; reflexivity|].
  apply (displayAxes_strict_sets_scale (PBool false) (vbool true) [] (ds_heap 1) (ds_chart 1));
    [reflexivity | vm_compute; reflexivity].
Defined.

(** X4: the hook of [padding(p)] for a primitive [p] sets
    [options.layout.padding] to [p] ([5] when omitted) and leaves every path
    that does not go through it, the other keys of [options.layout]
    included, as it was. *)
Theorem padding_sets_layout_padding p h0 h chart :
  wf (List.length h) h chart = true ->
  exists h' r,
    apply_hooks (snd (reg_padding (VP p) (h0, []))) h chart = Some (h', r) /\
    tpath ["options"; "layout"; "padding"] (config h' r) =
      Some (TLeaf (match p with PUndef => PNum 5 | _ => p end)) /\
    (forall q, diverges ["options"; "layout"; "padding"] q = true ->
       tpath q (config h' r) = tpath q (config h chart)).
Proof.
  intros Hc. set (p' := match p with PUndef => PNum 5 | _ => p end).
  assert (Hd : default (VP p) (vnum 5) = VP p') by (destruct p; reflexivity).
  set (e := TObj [("options", TObj [("layout", TObj [("padding", TLeaf (VP p'))])])] : lit).
  exists (fst (merge_lit h chart e)), (snd (merge_lit h chart e)). split.
  { unfold reg_padding. cbn [snd app]. rewrite apply_hooks_single, Hd.
    cbn [run_hook]. now rewrite <- surjective_pairing. }
  destruct (merge_lit_nest h chart e ["options"; "layout"; "padding"] (TLeaf p') Hc)
    as [Ha Ho].
  - simpl. now rewrite wf_prim.
  - simpl. now rewrite config_prim.
  - split; [|exact Ho]. rewrite Ha. destruct (tpath _ (config h chart)); [|reflexivity].
    now rewrite mergeOptions_onto_leaf.
Qed.

Lemma padding_sets_layout_padding_witness :
  wf (List.length (ds_heap 1)) (ds_heap 1) (ds_chart 1) = true /\
  exists h' r,
    apply_hooks (snd (reg_padding undef ([], []))) (ds_heap 1) (ds_chart 1) = Some (h', r) /\
    tpath ["options"; "layout"; "padding"] (config h' r) = Some (TLeaf (PNum 5)) /\
    (forall q, diverges ["options"; "layout"; "padding"] q = true ->
       tpath q (config h' r) = tpath q (config (ds_heap 1) (ds_chart 1))).
Proof.
  split; [vm_compute; reflexivity|].
  apply (padding_sets_layout_padding PUndef [] (ds_heap 1) (ds_chart 1)).
  vm_compute. reflexivity.
Defined.

(** X5: the hook of [beginAtZero(b)] for a primitive [b] replaces the whole
    array [options.scales.yAxes] by [[{ticks: {beginAtZero: b}}]] ([b] is
    [true] when omitted), so the settings of the y axes that were there are
    lost, and leaves every path that does not go through
    [options.scales.yAxes], [options.scales.xAxes] included, as it was. *)
Theorem beginAtZero_replaces_yAxes p h0 h chart :
  wf (List.length h) h chart = true ->
  exists h' r,
    apply_hooks (snd (reg_beginAtZero (VP p) (h0, []))) h chart = Some (h', r) /\
    tpath ["options"; "scales"; "yAxes"] (config h' r) =
      Some (TArr [TObj [("ticks", TObj [("beginAtZero",
                    TLeaf (match p with PUndef => PBool true | _ => p end))])]]) /\
    (forall q, diverges ["options"; "scales"; "yAxes"] q = true ->
       tpath q (config h' r) = tpath q (config h chart)).
Proof.
  intros Hc. set (p' := match p with PUndef => PBool true | _ => p end).
  assert (Hd : default (VP p) (vbool true) = VP p') by (destruct p; reflexivity).
  set (e := TObj [("options", TObj [("scales", TObj
              [("yAxes", TArr [TObj [("ticks", TObj [("beginAtZero", TLeaf (VP p'))])]])])])] : lit).
  exists (fst (merge_lit h chart e)), (snd (merge_lit h chart e)). split.
  { unfold reg_beginAtZero. cbn [snd app]. rewrite apply_hooks_single, Hd.
    cbn [run_hook]. now rewrite <- surjective_pairing. }
  destruct (merge_lit_nest h chart e ["options"; "scales"; "yAxes"]
              (TArr [TObj [("ticks", TObj [("beginAtZero", TLeaf p')])]]) Hc) as [Ha Ho].
  - simpl. now rewrite wf_prim.
  - simpl. now rewrite config_prim.
  - split; [|exact Ho]. rewrite Ha. destruct (tpath _ (config h chart)); [|reflexivity].
    now rewrite mergeOptions_onto_arr.
Qed.

Lemma beginAtZero_replaces_yAxes_witness :
  wf (List.length (ds_heap 1)) (ds_heap 1) (ds_chart 1) = true /\
  exists h' r,
    apply_hooks (snd (reg_beginAtZero undef ([], []))) (ds_heap 1) (ds_chart 1) = Some (h', r) /\
    tpath ["options"; "scales"; "yAxes"] (config h' r) =
      Some (TArr [TObj [("ticks", TObj [("beginAtZero", TLeaf (PBool true))])]]) /\
    (forall q, diverges ["options"; "scales"; "yAxes"] q = true ->
       tpath q (config h' r) = tpath q (config (ds_heap 1) (ds_chart 1))).
Proof.
  split; [vm_compute; reflexivity|].
  apply (beginAtZero_replaces_yAxes PUndef [] (ds_heap 1) (ds_chart 1)).
  vm_compute. reflexivity.
Defined.

Lemma tpath_app p q : forall t,
  tpath (p ++ q) t = match tpath p t with Some t' => tpath q t' | None => None end.
Proof.
  induction p as [|k p IH]; intros t; [reflexivity|].
  destruct t as [a|ts|fs]; try reflexivity. simpl.
  destruct (get_field fs k); [apply IH | reflexivity].
Qed.

(** Merging an object fragment under a path: its primitive keys are set,
    and a key it does not have keeps the base's value. *)
Lemma merge_nest_obj_keys b p fs :
  NoDup (map fst fs) ->
  (forall k a, get_field fs k = Some (TLeaf a) ->
     tpath (p ++ [k]) (mergeOptions b (nest p (TObj fs))) = Some (TLeaf a)) /\
  (forall k q, get_field fs k = None ->
     tpath (p ++ k :: q) (mergeOptions b (nest p (TObj fs))) = tpath (p ++ k :: q) b).
Proof.
  intros Hnd. split.
  - intros k a Hk. rewrite tpath_app, merge_nest_at. destruct (tpath p b) as [bv|]; [|simpl; now rewrite Hk].
    pose proof (get_mergeOptions bv fs k (TLeaf a) Hnd Hk) as G.
    destruct (mergeOptions bv (TObj fs)) as [| |rs]; try contradiction.
    simpl. rewrite G. destruct bv as [| |bs]; try reflexivity.
    destruct (get_field bs k); [now rewrite mergeOptions_onto_leaf | reflexivity].
  - intros k q Hk. rewrite !tpath_app, merge_nest_at. destruct (tpath p b) as [bv|]; [|simpl; now rewrite Hk].
    destruct bv as [a|ts|bs]; [simpl; now rewrite Hk | simpl; now rewrite Hk|].
    rewrite mergeOptions_obj. simpl. rewrite get_merge_go, Hk by exact Hnd. reflexivity.
Qed.

(** X6: [title(s)] with a string registers the new object
    [{text: s, display: true}]; its hook, run on a heap that still holds
    that object, sets [options.title.text] to [s] and
    [options.title.display] to [true], keeps every other key of an existing
    [options.title], and leaves every path outside [options.title] as it
    was. *)
Theorem title_string_sets_text s h0 h chart :
  ext (h0 ++ [plain [("text", vstr s); ("display", vbool true)]]) h ->
  wf (List.length h) h chart = true ->
  reg_title (vstr s) (h0, []) = (h0 ++ [plain [("text", vstr s); ("display", vbool true)]], [HTitle (VRef (List.length h0))]) /\
  exists h' r,
    apply_hooks (snd (reg_title (vstr s) (h0, []))) h chart = Some (h', r) /\
    tpath ["options"; "title"; "text"] (config h' r) = Some (TLeaf (PStr s)) /\
    tpath ["options"; "title"; "display"] (config h' r) = Some (TLeaf (PBool true)) /\
    (forall k q, k <> "text" -> k <> "display" ->
       tpath ("options" :: "title" :: k :: q) (config h' r) =
         tpath ("options" :: "title" :: k :: q) (config h chart)) /\
    (forall q, diverges ["options"; "title"] q = true ->
       tpath q (config h' r) = tpath q (config h chart)).
Proof.
  intros Hx Hc.
  assert (Hreg : reg_title (vstr s) (h0, []) =
                 (h0 ++ [plain [("text", vstr s); ("display", vbool true)]],
                  [HTitle (VRef (List.length h0))])) by reflexivity.
  split; [exact Hreg|]. rewrite Hreg. cbn [snd].
  pose proof (nth_error_last _ _ _ Hx) as Hl.
  change (plain [("text", vstr s); ("display", vbool true)])
    with (plain (map (fun kv => (fst kv, VP (snd kv)))
                     [("text", PStr s); ("display", PBool true)])) in Hl.
  destruct (config_plain_prims _ _ _ Hl) as [Hw Hcf].
  set (e := TObj [("options", TObj [("title", TLeaf (VRef (List.length h0)))])] : lit).
  set (fs := [("text", TLeaf (PStr s)); ("display", TLeaf (PBool true))] : fields json).
  assert (He : lit_ok (List.length h) h e = true) by (simpl; now rewrite Hw).
  assert (Hn : tsubst (config h) e = nest ["options"; "title"] (TObj fs)) by (simpl; now rewrite Hcf).
  assert (Hnd : NoDup (map fst fs)) by (repeat constructor; simpl; intuition discriminate).
  exists (fst (merge_lit h chart e)), (snd (merge_lit h chart e)). split.
  { rewrite apply_hooks_single. cbn [run_hook]. now rewrite <- surjective_pairing. }
  rewrite (config_merge_lit_wf h chart e Hc He), Hn.
  destruct (merge_nest_obj_keys (config h chart) ["options"; "title"] fs Hnd) as [Hk Ho].
  split; [apply (Hk "text"); reflexivity|].
  split; [apply (Hk "display"); reflexivity|].
  split.
  - intros k q Ht Hd. apply (Ho k q). simpl.
    apply String.eqb_neq in Ht, Hd. now rewrite Ht, Hd.
  - intros q Hq. now apply merge_nest_other.
Qed.

Lemma title_string_sets_text_witness :
  let h := ds_heap 1 ++ [plain [("text", vstr "Sales"); ("display", vbool true)]] in
  ext (ds_heap 1 ++ [plain [("text", vstr "Sales"); ("display", vbool true)]]) h /\
  wf (List.length h) h (ds_chart 1) = true /\
  reg_title (vstr "Sales") (ds_heap 1, []) = (ds_heap 1 ++ [plain [("text", vstr "Sales"); ("display", vbool true)]], [HTitle (VRef 4)]) /\
  exists h' r,
    apply_hooks (snd (reg_title (vstr "Sales") (ds_heap 1, []))) h (ds_chart 1) = Some (h', r) /\
    tpath ["options"; "title"; "text"] (config h' r) = Some (TLeaf (PStr "Sales")) /\
    tpath ["options"; "title"; "display"] (config h' r) = Some (TLeaf (PBool true)) /\
    (forall k q, k <> "text" -> k <> "display" ->
       tpath ("options" :: "title" :: k :: q) (config h' r) =
         tpath ("options" :: "title" :: k :: q) (config h (ds_chart 1))) /\
    (forall q, diverges ["options"; "title"] q = true ->
       tpath q (config h' r) = tpath q (config h (ds_chart 1))).
Proof.
  intros h. split; [apply ext_refl|]. split; [vm_compute; reflexivity|].
  apply (title_string_sets_text "Sales" (ds_heap 1) h (ds_chart 1));
    [apply ext_refl | vm_compute; reflexivity].
Defined.

(** X7: [legend()] without an argument registers a new empty object; its
    hook keeps an existing [options.legend] object unchanged, puts an empty
    object there when [options.legend] is missing or not an object, and
    leaves every path outside [options.legend] as it was. *)
Theorem legend_default_keeps_legend h0 h chart :
  ext (h0 ++ [plain []]) h ->
  wf (List.length h) h chart = true ->
  reg_legend undef (h0, []) = (h0 ++ [plain []], [HLegend (VRef (List.length h0))]) /\
  exists h' r,
    apply_hooks (snd (reg_legend undef (h0, []))) h chart = Some (h', r) /\
    tpath ["options"; "legend"] (config h' r) =
      Some (match tpath ["options"; "legend"] (config h chart) with
            | Some (TObj bs) => TObj bs
            | _ => TObj []
            end) /\
    (forall q, diverges ["options"; "legend"] q = true ->
       tpath q (config h' r) = tpath q (config h chart)).
Proof.
  intros Hx Hc.
  assert (Hreg : reg_legend undef (h0, []) =
                 (h0 ++ [plain []], [HLegend (VRef (List.length h0))])) by reflexivity.
  split; [exact Hreg|]. rewrite Hreg. cbn [snd].
  pose proof (nth_error_last _ _ _ Hx) as Hl.
  change (plain []) with (plain (map (fun kv => (fst kv, VP (snd kv))) [])) in Hl.
  destruct (config_plain_prims _ _ _ Hl) as [Hw Hcf].
  set (e := TObj [("options", TObj [("legend", TLeaf (VRef (List.length h0)))])] : lit).
  exists (fst (merge_lit h chart e)), (snd (merge_lit h chart e)). split.
  { rewrite apply_hooks_single. cbn [run_hook]. now rewrite <- surjective_pairing. }
  destruct (merge_lit_nest h chart e ["options"; "legend"] (TObj []) Hc) as [Ha Ho].
  - simpl. now rewrite Hw.
  - simpl. now rewrite Hcf.
  - split; [|exact Ho]. rewrite Ha.
    destruct (tpath _ (config h chart)) as [[a|ts|bs]|]; reflexivity.
Qed.

Lemma legend_default_keeps_legend_witness :
  let h := ds_heap 1 ++ [plain []] in
  ext (ds_heap 1 ++ [plain []]) h /\
  wf (List.length h) h (ds_chart 1) = true /\
  reg_legend undef (ds_heap 1, []) = (ds_heap 1 ++ [plain []], [HLegend (VRef 4)]) /\
  exists h' r,
    apply_hooks (snd (reg_legend undef (ds_heap 1, []))) h (ds_chart 1) = Some (h', r) /\
    tpath ["options"; "legend"] (config h' r) =
      Some (match tpath ["options"; "legend"] (config h (ds_chart 1)) with
            | Some (TObj bs) => TObj bs
            | _ => TObj []
            end) /\
    (forall q, diverges ["options"; "legend"] q = true ->
       tpath q (config h' r) = tpath q (config h (ds_chart 1))).
Proof.
  intros h. split; [apply ext_refl|]. split; [vm_compute; reflexivity|].
  apply (legend_default_keeps_legend (ds_heap 1) h (ds_chart 1));
    [apply ext_refl | vm_compute; reflexivity].
Defined.

(** A configuration built by [mergeOptions] reads completely. *)
Lemma wf_alloc_json (t : json) : forall h h'' n,
  ext (fst (alloc_tree VP h t)) h'' -> tdepth t <= n ->
  wf n h'' (snd (alloc_tree VP h t)) = true.
Proof.
  induction t as [a|ts IH|fs IH] using tree_ind'; intros h h'' n Hx Hd.
  - apply wf_prim.
  - rewrite alloc_tree_arr in *.
    destruct (alloc_list VP h ts) as [h1 vs] eqn:El. simpl in *.
    destruct n as [|n]; [lia|]. simpl. rewrite (nth_error_last _ _ _ Hx). simpl.
    assert (Hd' : Forall (fun t => tdepth t <= n) ts).
    { apply (Forall_map tdepth (fun d => d <= n)). apply list_max_le. lia. }
    assert (Hx1 : ext h1 h'') by (eapply ext_trans; [apply ext_alloc | exact Hx]).
    clear Hx Hd. revert h vs El. induction IH as [|t ts Ht _ IHts]; intros h vs El.
    + simpl in El. now inversion El.
    + simpl in El. inversion Hd' as [|? ? Hdt Hdts]; subst.
      destruct (alloc_tree VP h t) as [h0 v] eqn:Et.
      destruct (alloc_list VP h0 ts) as [h2 vs'] eqn:El2.
      pose proof (alloc_list_ext VP ts h0) as E2. rewrite El2 in E2.
      inversion El; subst. simpl in *. apply andb_true_intro. split.
      * change v with (snd (h0, v)). rewrite <- Et. apply Ht; [|exact Hdt].
        rewrite Et. simpl. eapply ext_trans; eassumption.
      * eapply IHts; eassumption.
  - rewrite alloc_tree_obj in *.
    destruct (alloc_fields VP h fs) as [h1 kvs] eqn:El. simpl in *.
    destruct n as [|n]; [lia|]. simpl. rewrite (nth_error_last _ _ _ Hx). simpl.
    assert (Hd' : Forall (fun kv => tdepth (snd kv) <= n) fs).
    { apply (Forall_map (fun kv => tdepth (snd kv)) (fun d => d <= n)). apply list_max_le. lia. }
    assert (Hx1 : ext h1 h'') by (eapply ext_trans; [apply ext_alloc | exact Hx]).
    clear Hx Hd. revert h kvs El. induction IH as [|[k t] fs Ht _ IHfs]; intros h kvs El.
    + simpl in El. now inversion El.
    + simpl in El. inversion Hd' as [|? ? Hdt Hdfs]; subst. simpl in Ht, Hdt.
      destruct (alloc_tree VP h t) as [h0 v] eqn:Et.
      destruct (alloc_fields VP h0 fs) as [h2 kvs'] eqn:El2.
      pose proof (alloc_fields_ext VP fs h0) as E2. rewrite El2 in E2.
      inversion El; subst. simpl in *. apply andb_true_intro. split.
      * change v with (snd (h0, v)). rewrite <- Et. apply Ht; [|exact Hdt].
        rewrite Et. simpl. eapply ext_trans; eassumption.
      * eapply IHfs; eassumption.
Qed.

Lemma wf_merge_lit h chart e :
  wf (List.length (fst (merge_lit h chart e))) (fst (merge_lit h chart e))
     (snd (merge_lit h chart e)) = true.
Proof.
  unfold merge_lit. destruct (new_lit h e) as [h1 f]. unfold mergeOptionsH.
  set (t := mergeOptions (config h1 chart) (config h1 f)).
  pose proof (alloc_tree_grows VP t h1) as [_ G].
  apply wf_alloc_json; [apply ext_refl | lia].
Qed.

(** X8: [displayAxes(d)] followed by [beginAtZero(b)] (booleans): on every
    base configuration the x axes end as [[{display: d}]], while the y axes
    end as [[{ticks: {beginAtZero: b}}]]: the later hook's array replaces
    the one the earlier hook set, and the y axes lose their [display] flag. *)
Theorem displayAxes_then_beginAtZero d b h0 h chart :
  exists h' r,
    apply_hooks (snd (reg_beginAtZero (vbool b) (reg_displayAxes (vbool d) undef (h0, []))))
      h chart = Some (h', r) /\
    tpath ["options"; "scales"; "xAxes"] (config h' r) =
      Some (TArr [TObj [("display", TLeaf (PBool d))]]) /\
    tpath ["options"; "scales"; "yAxes"] (config h' r) =
      Some (TArr [TObj [("ticks", TObj [("beginAtZero", TLeaf (PBool b))])]]).
Proof.
  set (e2 := TObj [("options", TObj [("scales", TObj
               [("yAxes", TArr [TObj [("ticks", TObj [("beginAtZero", TLeaf (vbool b))])]])])])] : lit).
  assert (L : TObj [("options", TObj [("scales", TObj
                [("xAxes", TArr [TObj [("display", TLeaf (vbool d))]]);
                 ("yAxes", TArr [TObj [("display", TLeaf (vbool d))]])])])]
              = tmap VP (axes_frag (PBool d))) by reflexivity.
  assert (Hreg : snd (reg_beginAtZero (vbool b) (reg_displayAxes (vbool d) undef (h0, []))) =
                 [HDisplayAxes (vbool d) (vbool false); HBeginAtZero (vbool b)]) by reflexivity.
  rewrite Hreg. cbn [apply_hooks run_hook truthy obind]. rewrite L.
  destruct (config_merge_lit h chart (axes_frag (PBool d))) as [hb C1].
  pose proof (wf_merge_lit h chart (tmap VP (axes_frag (PBool d)))) as W1.
  destruct (merge_lit h chart (tmap VP (axes_frag (PBool d)))) as [h1 r1]. simpl in C1, W1.
  exists (fst (merge_lit h1 r1 e2)), (snd (merge_lit h1 r1 e2)). split.
  { unfold e2. destruct (merge_lit h1 r1 _). reflexivity. }
  destruct (merge_lit_nest h1 r1 e2 ["options"; "scales"; "yAxes"]
              (TArr [TObj [("ticks", TObj [("beginAtZero", TLeaf (PBool b))])]]) W1) as [Ha Ho].
  - simpl. now rewrite wf_prim.
  - simpl. now rewrite config_prim.
  - split.
    + rewrite Ho by reflexivity. rewrite C1. apply axes_frag_wins.
    + rewrite Ha. destruct (tpath _ (config h1 r1)); [|reflexivity].
      now rewrite mergeOptions_onto_arr.
Qed.

Lemma reg_colors_one p colors h0 :
  snd (reg_colors p colors (h0, [])) = [HColors (default colors p)].
Proof. reflexivity. Qed.

(** X9: [colors(c)] with an empty array [c]: [index % 0] is [NaN], so on a
    configuration whose [data.datasets] is an array of [n] entries the hook
    stores [n] new datasets whose [borderColor] and [backgroundColor] are
    both [undefined]; it does not throw. *)
Theorem colors_empty_palette_undefined p h0 lp h chart d od a es :
  nth_error h lp = Some (array []) ->
  get_prop h chart "data" = Some (VRef d) -> nth_error h d = Some od ->
  get_prop h (VRef d) "datasets" = Some (VRef a) -> array_elems h (VRef a) = Some es ->
  Forall (valid h) es ->
  exists h' a' es',
    apply_hooks (snd (reg_colors p (VRef lp) (h0, []))) h chart = Some (h', chart) /\
    opt_datasets h' chart = Some (VRef a') /\
    array_elems h' (VRef a') = Some es' /\
    List.length es' = List.length es /\
    forall i, i < List.length es ->
      exists l o, nth i es' undef = VRef l /\ nth_error h' l = Some o /\
        get_field (props o) "borderColor" = Some undef /\
        get_field (props o) "backgroundColor" = Some undef.
Proof.
  intros Hl Hdata Hd Hds Hes Hv.
  pose proof (remapped_facts h chart d od (color_obj h (VRef lp)) es Hdata Hd) as (F1 & F2 & F3 & _).
  exists (remapped h d od (color_obj h (VRef lp)) es), (List.length h),
    (map VRef (seq (S (List.length h)) (List.length es))).
  split.
  { rewrite reg_colors_one, apply_hooks_single. cbn [run_hook default].
    apply (colors_hook_closed _ _ _ d od a es); auto.
    intros i. now rewrite (cyc_at_empty h lp i Hl). }
  split; [exact F1|]. split; [exact F2|].
  split; [now rewrite length_map, length_seq|].
  intros i Hi. exists (S (List.length h) + i), (color_obj h (VRef lp) (nth i es undef) i).
  split; [now apply nth_map_VRef_seq|]. split; [now apply F3|].
  rewrite !color_obj_fields, (cyc_at_empty h lp i Hl). split; reflexivity.
Qed.

Lemma colors_empty_palette_undefined_witness :
  let h := ds_heap 2 ++ [array []] in
  nth_error h 5 = Some (array []) /\
  get_prop h (ds_chart 2) "data" = Some (VRef 3) /\
  nth_error h 3 = Some (plain [("datasets", VRef 2)]) /\
  get_prop h (VRef 3) "datasets" = Some (VRef 2) /\
  array_elems h (VRef 2) = Some [VRef 0; VRef 1] /\
  Forall (valid h) [VRef 0; VRef 1] /\
  exists h' a' es',
    apply_hooks (snd (reg_colors undef (VRef 5) ([], []))) h (ds_chart 2) = Some (h', ds_chart 2) /\
    opt_datasets h' (ds_chart 2) = Some (VRef a') /\
    array_elems h' (VRef a') = Some es' /\
    List.length es' = 2 /\
    forall i, i < 2 ->
      exists l o, nth i es' undef = VRef l /\ nth_error h' l = Some o /\
        get_field (props o) "borderColor" = Some undef /\
        get_field (props o) "backgroundColor" = Some undef.
Proof.
  intros h.
  assert (Hv : Forall (valid h) [VRef 0; VRef 1])
    by (repeat constructor; simpl; unfold h; rewrite length_app; simpl; lia).
  do 5 (split; [reflexivity|]). split; [exact Hv|].
  apply (colors_empty_palette_undefined undef [] 5 h (ds_chart 2) 3
           (plain [("datasets", VRef 2)]) 2 [VRef 0; VRef 1]);
    [reflexivity | reflexivity | reflexivity | reflexivity | reflexivity | exact Hv].
Defined.

(** X10: [colors(null)] keeps [null] ([null] is not [undefined], so the
    default palette is not used).  Its hook throws a [TypeError] ([null.length])
    on a configuration whose [data.datasets] is a non-empty array, and does
    not throw when that array is empty, since the callback is never run. *)
Theorem colors_null_throws p h0 h chart d od a es :
  get_prop h chart "data" = Some (VRef d) -> nth_error h d = Some od ->
  get_prop h (VRef d) "datasets" = Some (VRef a) -> array_elems h (VRef a) = Some es ->
  snd (reg_colors p (VP PNull) (h0, [])) = [HColors (VP PNull)] /\
  (es <> [] -> apply_hooks (snd (reg_colors p (VP PNull) (h0, []))) h chart = None) /\
  (es = [] -> exists h', apply_hooks (snd (reg_colors p (VP PNull) (h0, []))) h chart = Some (h', chart)).
Proof.
  intros Hdata Hd Hds Hes. rewrite reg_colors_one, apply_hooks_single. cbn [run_hook default].
  split; [reflexivity|].
  assert (Ho : opt_datasets h chart = Some (VRef a))
    by (unfold opt_datasets; rewrite Hdata; exact Hds).
  split.
  - intros Hne. unfold colors_hook. rewrite Ho. cbn [obind truthy].
    rewrite Hdata. cbn [obind]. rewrite Hds. cbn [obind].
    unfold js_map. rewrite Hes. destruct es as [|e es']; [contradiction|]. reflexivity.
  - intros ->. exists (remapped h d od (color_obj h (VP PNull)) []).
    unfold colors_hook. rewrite Ho. cbn [obind truthy].
    apply (remap_closed h chart d od a [] _ _ Hdata Hd Hds Hes).
    intros h' e j _ [].
Qed.

Lemma colors_null_throws_witness :
  get_prop (ds_heap 1) (ds_chart 1) "data" = Some (VRef 2) /\
  nth_error (ds_heap 1) 2 = Some (plain [("datasets", VRef 1)]) /\
  get_prop (ds_heap 1) (VRef 2) "datasets" = Some (VRef 1) /\
  array_elems (ds_heap 1) (VRef 1) = Some [VRef 0] /\
  snd (reg_colors undef (VP PNull) ([], [])) = [HColors (VP PNull)] /\
  ([VRef 0] <> [] ->
   apply_hooks (snd (reg_colors undef (VP PNull) ([], []))) (ds_heap 1) (ds_chart 1) = None) /\
  ([VRef 0] = [] -> exists h',
   apply_hooks (snd (reg_colors undef (VP PNull) ([], []))) (ds_heap 1) (ds_chart 1) =
     Some (h', ds_chart 1)).
Proof.
  do 4 (split; [reflexivity|]).
  apply (colors_null_throws undef [] (ds_heap 1) (ds_chart 1) 2 (plain [("datasets", VRef 1)]) 1 [VRef 0]);
    reflexivity.
Defined.

Lemma string_get_lt s : forall n, n < String.length s -> exists c, String.get n s = Some c.
Proof.
  induction s as [|c s IH]; intros n Hn; simpl in Hn; [lia|].
  destruct n as [|n]; [now exists c|]. apply IH. lia.
Qed.

Lemma cyc_at_string h s i :
  0 < String.length s ->
  exists c, String.get (i mod String.length s) s = Some c /\
            cyc_at h (vstr s) i = Some (vstr (String c EmptyString)).
Proof.
  intros Hs.
  destruct (string_get_lt s (i mod String.length s)) as [c Hc];
    [apply Nat.mod_upper_bound; lia|].
  exists c. split; [exact Hc|].
  unfold cyc_at, obind, get_prop. cbn [String.eqb Ascii.eqb Bool.eqb andb].
  assert (Hz : Z.eqb (Z.of_nat (String.length s)) 0 = false) by (apply Z.eqb_neq; lia).
  rewrite Hz. unfold get_idx.
  rewrite Z.rem_mod_nonneg by lia. rewrite <- Nat2Z.inj_mod.
  assert (Hn : (Z.of_nat (i mod String.length s) <? 0)%Z = false) by (apply Z.ltb_ge; lia).
  rewrite Hn, Nat2Z.id, Hc. reflexivity.
Qed.

(** X11: [colors(s)] with a non-empty string [s] (a single color name
    instead of an array): [s[index % s.length]] is a character, so on a
    configuration whose [data.datasets] is an array of [n] entries the hook
    stores [n] new datasets and gives dataset [i] the one-character string
    at position [i mod |s|] of [s] as [borderColor] and [backgroundColor]. *)
Theorem colors_string_cycles_chars p h0 s h chart d od a es :
  0 < String.length s ->
  get_prop h chart "data" = Some (VRef d) -> nth_error h d = Some od ->
  get_prop h (VRef d) "datasets" = Some (VRef a) -> array_elems h (VRef a) = Some es ->
  Forall (valid h) es ->
  exists h' a' es',
    apply_hooks (snd (reg_colors p (vstr s) (h0, []))) h chart = Some (h', chart) /\
    opt_datasets h' chart = Some (VRef a') /\
    array_elems h' (VRef a') = Some es' /\
    List.length es' = List.length es /\
    forall i, i < List.length es ->
      exists l o c, nth i es' undef = VRef l /\ nth_error h' l = Some o /\
        String.get (i mod String.length s) s = Some c /\
        get_field (props o) "borderColor" = Some (vstr (String c EmptyString)) /\
        get_field (props o) "backgroundColor" = Some (vstr (String c EmptyString)).
Proof.
  intros Hs Hdata Hd Hds Hes Hv.
  pose proof (remapped_facts h chart d od (color_obj h (vstr s)) es Hdata Hd) as (F1 & F2 & F3 & _).
  exists (remapped h d od (color_obj h (vstr s)) es), (List.length h),
    (map VRef (seq (S (List.length h)) (List.length es))).
  split.
  { rewrite reg_colors_one, apply_hooks_single. cbn [run_hook default].
    apply (colors_hook_closed _ _ _ d od a es); auto.
    intros i. destruct (cyc_at_string h s i Hs) as (c & _ & ->). discriminate. }
  split; [exact F1|]. split; [exact F2|].
  split; [now rewrite length_map, length_seq|].
  intros i Hi. destruct (cyc_at_string h s i Hs) as (c & Hc & Hcy).
  exists (S (List.length h) + i), (color_obj h (vstr s) (nth i es undef) i), c.
  split; [now apply nth_map_VRef_seq|]. split; [now apply F3|]. split; [exact Hc|].
  rewrite !color_obj_fields, Hcy. split; reflexivity.
Qed.

Lemma colors_string_cycles_chars_witness :
  0 < String.length "red" /\
  get_prop (ds_heap 2) (ds_chart 2) "data" = Some (VRef 3) /\
  nth_error (ds_heap 2) 3 = Some (plain [("datasets", VRef 2)]) /\
  get_prop (ds_heap 2) (VRef 3) "datasets" = Some (VRef 2) /\
  array_elems (ds_heap 2) (VRef 2) = Some [VRef 0; VRef 1] /\
  Forall (valid (ds_heap 2)) [VRef 0; VRef 1] /\
  exists h' a' es',
    apply_hooks (snd (reg_colors undef (vstr "red") ([], []))) (ds_heap 2) (ds_chart 2)
      = Some (h', ds_chart 2) /\
    opt_datasets h' (ds_chart 2) = Some (VRef a') /\
    array_elems h' (VRef a') = Some es' /\
    List.length es' = 2 /\
    forall i, i < 2 ->
      exists l o c, nth i es' undef = VRef l /\ nth_error h' l = Some o /\
        String.get (i mod String.length "red") "red" = Some c /\
        get_field (props o) "borderColor" = Some (vstr (String c EmptyString)) /\
        get_field (props o) "backgroundColor" = Some (vstr (String c EmptyString)).
Proof.
  assert (Hv : Forall (valid (ds_heap 2)) [VRef 0; VRef 1]) by (repeat constructor; simpl; lia).
  split; [simpl; lia|]. do 4 (split; [reflexivity|]). split; [exact Hv|].
  apply (colors_string_cycles_chars undef [] "red" (ds_heap 2) (ds_chart 2) 3
           (plain [("datasets", VRef 2)]) 2 [VRef 0; VRef 1]);
    [simpl; lia | reflexivity | reflexivity | reflexivity | reflexivity | exact Hv].
Defined.

(** X12: [datasets([], general)] with an empty list registers a new empty
    array; [t[index % 0]] is [undefined] and spreading it adds nothing, so
    its hook sets the configuration's [type] to [general] ([bar] when
    omitted) and replaces every dataset by a new copy holding exactly the
    dataset's own properties: no dataset gets a [type]. *)
Theorem datasets_empty_list_copies types general h0 h c oc d a es :
  array_elems h0 types = Some [] ->
  ext (h0 ++ [array []]) h ->
  nth_error h c = Some oc ->
  get_prop h (VRef c) "data" = Some (VRef d) ->
  get_prop h (VRef d) "datasets" = Some (VRef a) -> array_elems h (VRef a) = Some es ->
  Forall (valid h) es ->
  reg_datasets types general (h0, []) =
    (h0 ++ [array []], [HDatasets (VRef (List.length h0)) (default general (vstr "bar"))]) /\
  exists h' a' es',
    apply_hooks (snd (reg_datasets types general (h0, []))) h (VRef c) = Some (h', VRef c) /\
    get_prop h' (VRef c) "type" = Some (default general (vstr "bar")) /\
    opt_datasets h' (VRef c) = Some (VRef a') /\
    array_elems h' (VRef a') = Some es' /\ List.length es' = List.length es /\
    forall i o, i < List.length es ->
      record_at h (nth i es undef) o -> NoDup (map fst (props o)) -> nth i es undef <> VRef c ->
      exists l o', nth i es' undef = VRef l /\ List.length h < l /\ nth_error h' l = Some o' /\
        forall k, get_field (props o') k = get_field (props o) k.
Proof.
  intros Ht Hx Hc Hdata Hds Hes Hv.
  assert (Hreg : reg_datasets types general (h0, []) =
    (h0 ++ [array []], [HDatasets (VRef (List.length h0)) (default general (vstr "bar"))])).
  { unfold reg_datasets. rewrite Ht. simpl.
    rewrite <- (Nat.add_0_r (List.length h0)), replace_nth_app_r. reflexivity. }
  split; [exact Hreg|]. rewrite Hreg. cbn [snd]. rewrite apply_hooks_single. cbn [run_hook].
  set (g := default general (vstr "bar")).
  pose proof (nth_error_last _ _ _ Hx) as Hlt.
  assert (Hne : List.length h0 <> c).
  { intros <-. rewrite Hc in Hlt. injection Hlt as ->. simpl in Hdata. rewrite Hc in Hdata.
    discriminate. }
  set (h1 := upd_prop h c oc "type" g).
  assert (Hd : nth_error h d <> None) by (simpl in Hds; destruct (nth_error h d); congruence).
  destruct (nth_error h1 d) as [od1|] eqn:Hd1;
    [|apply nth_error_None in Hd1; apply nth_error_Some in Hd; unfold h1 in Hd1;
      rewrite length_upd_prop in Hd1; lia].
  assert (Hdata1 : get_prop h1 (VRef c) "data" = Some (VRef d))
    by (unfold h1; rewrite get_prop_upd_other by (exact Hc || reflexivity); exact Hdata).
  pose proof (remapped_facts h1 (VRef c) d od1 (ds_obj h1 []) es Hdata1 Hd1) as (F1 & F2 & F3 & _).
  exists (remapped h1 d od1 (ds_obj h1 []) es), (List.length h1),
    (map VRef (seq (S (List.length h1)) (List.length es))).
  split; [exact (datasets_hook_closed_empty (List.length h0) g h c oc d od1 a es
                   Hc Hlt Hne Hdata Hds Hes Hv Hd1)|].
  split.
  { unfold remapped.
    set (x := array (map VRef (seq (S (List.length h1)) (List.length es))) :: cells (ds_obj h1 []) es 0).
    assert (E : ext h1 (h1 ++ x)) by (eexists; reflexivity).
    rewrite get_prop_upd_other by (exact (nth_error_ext _ _ _ _ E Hd1) || reflexivity).
    apply (get_prop_ext h1 _ _ _ _ E). unfold h1.
    apply get_prop_upd_same; [exact Hc | right; reflexivity]. }
  split; [exact F1|]. split; [exact F2|].
  split; [now rewrite length_map, length_seq|].
  intros i o Hi Hr Hnd Hnc.
  exists (S (List.length h1) + i), (ds_obj h1 [] (nth i es undef) i).
  split; [now apply nth_map_VRef_seq|].
  split; [unfold h1; rewrite length_upd_prop; lia|]. split; [now apply F3|].
  intros k. unfold ds_obj, h1. rewrite nth_nil_undef. simpl props.
  cbn [spread_fields get_field].
  rewrite spread_fields_upd_other by assumption.
  rewrite (spread_record h _ o Hr).
  rewrite get_field_assign by exact Hnd.
  destruct (get_field (props o) k); reflexivity.
Qed.

Lemma datasets_empty_list_copies_witness :
  let h0 := ds_heap 1 ++ [array []] in
  let h := h0 ++ [array []] in
  array_elems h0 (VRef 4) = Some [] /\
  ext (h0 ++ [array []]) h /\
  nth_error h 3 = Some (plain [("type", vstr "line"); ("data", VRef 2)]) /\
  get_prop h (VRef 3) "data" = Some (VRef 2) /\
  get_prop h (VRef 2) "datasets" = Some (VRef 1) /\ array_elems h (VRef 1) = Some [VRef 0] /\
  Forall (valid h) [VRef 0] /\
  reg_datasets (VRef 4) undef (h0, []) =
    (h0 ++ [array []], [HDatasets (VRef (List.length h0)) (default undef (vstr "bar"))]) /\
  exists h' a' es',
    apply_hooks (snd (reg_datasets (VRef 4) undef (h0, []))) h (VRef 3) = Some (h', VRef 3) /\
    get_prop h' (VRef 3) "type" = Some (default undef (vstr "bar")) /\
    opt_datasets h' (VRef 3) = Some (VRef a') /\
    array_elems h' (VRef a') = Some es' /\ List.length es' = 1 /\
    forall i o, i < 1 ->
      record_at h (nth i [VRef 0] undef) o -> NoDup (map fst (props o)) ->
      nth i [VRef 0] undef <> VRef 3 ->
      exists l o', nth i es' undef = VRef l /\ List.length h < l /\ nth_error h' l = Some o' /\
        forall k, get_field (props o') k = get_field (props o) k.
Proof.
  intros h0 h.
  assert (Hv : Forall (valid h) [VRef 0]) by (repeat constructor; simpl; lia).
  do 2 (split; [reflexivity || apply ext_refl|]).
  do 4 (split; [reflexivity|]). split; [exact Hv|].
  apply (datasets_empty_list_copies (VRef 4) undef h0 h 3
           (plain [("type", vstr "line"); ("data", VRef 2)]) 2 1 [VRef 0]);
    [reflexivity | apply ext_refl | reflexivity | reflexivity | reflexivity | reflexivity | exact Hv].
Defined.

Lemma opt_datasets_truthy h chart ds :
  opt_datasets h chart = Some ds -> truthy ds = true ->
  exists data, get_prop h chart "data" = Some data /\ get_prop h data "datasets" = Some ds.
Proof.
  unfold opt_datasets. destruct (get_prop h chart "data") as [data|]; [|discriminate].
  cbn [obind]. intros Hd Ht. exists data. split; [reflexivity|].
  destruct data as [[| | | |]|]; try exact Hd; injection Hd as <-; discriminate.
Qed.

Lemma js_map_not_array h v f : array_elems h v = None -> js_map h v f = None.
Proof. intros Hv. unfold js_map. now rewrite Hv. Qed.

(** X13: when [chart.data.datasets] is present (truthy) but not an array,
    for example an object or a string, [.map] is not a function: the hooks
    of [colors(c)] and of [datasets(t, g)] both throw a [TypeError]. *)
Theorem per_dataset_hooks_need_array colors t g h c oc ds :
  nth_error h c = Some oc ->
  opt_datasets h (VRef c) = Some ds -> truthy ds = true -> array_elems h ds = None ->
  run_hook (HColors colors) h (VRef c) = None /\ run_hook (HDatasets t g) h (VRef c) = None.
Proof.
  intros Hc Ho Ht Ha. split.
  - cbn [run_hook]. unfold colors_hook. rewrite Ho. cbn [obind]. rewrite Ht.
    destruct (opt_datasets_truthy h (VRef c) ds Ho Ht) as (data & Hd & Hds).
    rewrite Hd. cbn [obind]. rewrite Hds. cbn [obind]. now rewrite js_map_not_array.
  - cbn [run_hook]. unfold datasets_hook. rewrite (set_prop_ref h c oc _ _ Hc). cbn [obind].
    set (h1 := upd_prop h c oc "type" g).
    assert (Ho1 : opt_datasets h1 (VRef c) = Some ds)
      by (unfold h1; rewrite opt_datasets_upd by (exact Hc || reflexivity); exact Ho).
    rewrite Ho1. cbn [obind]. rewrite Ht.
    destruct (opt_datasets_truthy h1 (VRef c) ds Ho1 Ht) as (data & Hd & Hds).
    rewrite Hd. cbn [obind]. rewrite Hds. cbn [obind].
    rewrite js_map_not_array; [reflexivity|]. unfold h1. now rewrite array_elems_upd.
Qed.

Lemma per_dataset_hooks_need_array_witness :
  let h := [plain [("datasets", vstr "abc")]; plain [("data", VRef 0)]] in
  nth_error h 1 = Some (plain [("data", VRef 0)]) /\
  opt_datasets h (VRef 1) = Some (vstr "abc") /\ truthy (vstr "abc") = true /\
  array_elems h (vstr "abc") = None /\
  run_hook (HColors (VRef 0)) h (VRef 1) = None /\
  run_hook (HDatasets (VRef 0) (vstr "bar")) h (VRef 1) = None.
Proof.
  intros h. do 4 (split; [reflexivity|]).
  apply (per_dataset_hooks_need_array (VRef 0) (VRef 0) (vstr "bar") h 1
           (plain [("data", VRef 0)]) (vstr "abc")); reflexivity.
Defined.

(** X14: [minimalist(v)] for a primitive [v] (default [true]): with [nb]
    the negation of [v]'s truthiness, its two hooks, run on a heap that
    still holds the object it registers, leave [options.legend.display],
    [options.scales.xAxes] and [options.scales.yAxes] as [nb],
    [[{display: nb}]] and [[{display: nb}]]. *)
Theorem minimalist_net_effect p h0 h chart :
  let nb := negb (truthy (default (VP p) (vbool true))) in
  ext (fst (reg_minimalist (VP p) (h0, []))) h ->
  wf (List.length h) h chart = true ->
  exists h' r,
    apply_hooks (snd (reg_minimalist (VP p) (h0, []))) h chart = Some (h', r) /\
    tpath ["options"; "legend"; "display"] (config h' r) = Some (TLeaf (PBool nb)) /\
    tpath ["options"; "scales"; "xAxes"] (config h' r) =
      Some (TArr [TObj [("display", TLeaf (PBool nb))]]) /\
    tpath ["options"; "scales"; "yAxes"] (config h' r) =
      Some (TArr [TObj [("display", TLeaf (PBool nb))]]).
Proof.
  intros nb Hx Hc.
  assert (Hreg : reg_minimalist (VP p) (h0, []) =
                 (h0 ++ [plain [("display", vbool nb)]],
                  [HLegend (VRef (List.length h0)); HDisplayAxes (vbool nb) (vbool false)]))
    by reflexivity.
  rewrite Hreg in *. simpl fst in Hx. cbn [snd].
  pose proof (nth_error_last _ _ _ Hx) as Hl.
  change (plain [("display", vbool nb)])
    with (plain (map (fun kv => (fst kv, VP (snd kv))) [("display", PBool nb)])) in Hl.
  destruct (config_plain_prims _ _ _ Hl) as [Hw Hcf].
  set (e1 := TObj [("options", TObj [("legend", TLeaf (VRef (List.length h0)))])] : lit).
  destruct (merge_lit_nest h chart e1 ["options"; "legend"; "display"] (TLeaf (PBool nb)) Hc)
    as [Ha _]; [simpl; now rewrite Hw | simpl; now rewrite Hcf|].
  pose proof (wf_merge_lit h chart e1) as W1.
  cbn [apply_hooks run_hook truthy obind]. fold e1.
  destruct (merge_lit h chart e1) as [h1 r1]. cbn [fst snd] in Ha, W1.
  set (e2 := TObj [("options", TObj [("scales", TObj
               [("xAxes", TArr [TObj [("display", TLeaf (vbool nb))]]);
                ("yAxes", TArr [TObj [("display", TLeaf (vbool nb))]])])])] : lit).
  exists (fst (merge_lit h1 r1 e2)), (snd (merge_lit h1 r1 e2)). split.
  { unfold e2. destruct (merge_lit h1 r1 _). reflexivity. }
  assert (He2 : lit_ok (List.length h1) h1 e2 = true) by (simpl; now rewrite !wf_prim).
  rewrite (config_merge_lit_wf h1 r1 e2 W1 He2).
  assert (Hs : tsubst (config h1) e2 = axes_frag (PBool nb)) by (simpl; now rewrite !config_prim).
  rewrite Hs. destruct (axes_frag_wins (config h1 r1) (PBool nb)) as [Ax Ay].
  split; [|split; [exact Ax | exact Ay]].
  change (axes_frag (PBool nb)) with
    (nest ["options"; "scales"] (TObj [("xAxes", TArr [TObj [("display", TLeaf (PBool nb))]]);
                                      ("yAxes", TArr [TObj [("display", TLeaf (PBool nb))]])])).
  rewrite merge_nest_other by reflexivity. rewrite Ha.
  destruct (tpath _ (config h chart)); [|reflexivity]. now rewrite mergeOptions_onto_leaf.
Qed.

Lemma minimalist_net_effect_witness :
  let h := ds_heap 1 ++ [plain [("display", vbool false)]] in
  ext (fst (reg_minimalist (vbool true) (ds_heap 1, []))) h /\
  wf (List.length h) h (ds_chart 1) = true /\
  exists h' r,
    apply_hooks (snd (reg_minimalist (vbool true) (ds_heap 1, []))) h (ds_chart 1) = Some (h', r) /\
    tpath ["options"; "legend"; "display"] (config h' r) = Some (TLeaf (PBool false)) /\
    tpath ["options"; "scales"; "xAxes"] (config h' r) =
      Some (TArr [TObj [("display", TLeaf (PBool false))]]) /\
    tpath ["options"; "scales"; "yAxes"] (config h' r) =
      Some (TArr [TObj [("display", TLeaf (PBool false))]]).
Proof.
  intros h. split; [apply ext_refl|]. split; [vm_compute; reflexivity|].
  apply (minimalist_net_effect (PBool true) (ds_heap 1) h (ds_chart 1));
    [apply ext_refl | vm_compute; reflexivity].
Defined.

(** X15: [title()] without an argument registers the new object
    [{display: true}]; its hook sets [options.title.display] to [true],
    keeps every other key of an existing [options.title], and leaves every
    path outside [options.title] as it was. *)
Theorem title_default_displays h0 h chart :
  ext (h0 ++ [plain []; plain [("display", vbool true)]]) h ->
  wf (List.length h) h chart = true ->
  reg_title undef (h0, []) =
    (h0 ++ [plain []; plain [("display", vbool true)]], [HTitle (VRef (S (List.length h0)))]) /\
  exists h' r,
    apply_hooks (snd (reg_title undef (h0, []))) h chart = Some (h', r) /\
    tpath ["options"; "title"; "display"] (config h' r) = Some (TLeaf (PBool true)) /\
    (forall k q, k <> "display" ->
       tpath ("options" :: "title" :: k :: q) (config h' r) =
         tpath ("options" :: "title" :: k :: q) (config h chart)) /\
    (forall q, diverges ["options"; "title"] q = true ->
       tpath q (config h' r) = tpath q (config h chart)).
Proof.
  intros Hx Hc.
  assert (Hreg : reg_title undef (h0, []) =
                 ((h0 ++ [plain []]) ++ [plain [("display", vbool true)]],
                  [HTitle (VRef (List.length (h0 ++ [plain []])))])).
  { unfold reg_title. cbn [alloc]. simpl spread_fields.
    rewrite nth_error_app2, Nat.sub_diag by lia. reflexivity. }
  split.
  { rewrite Hreg, <- app_assoc, length_app, Nat.add_1_r. reflexivity. }
  change (h0 ++ [plain []; plain [("display", vbool true)]]) with (h0 ++ ([plain []] ++ [plain [("display", vbool true)]])) in Hx.
  rewrite app_assoc in Hx. rewrite Hreg. cbn [snd].
  pose proof (nth_error_last _ _ _ Hx) as Hl.
  change (plain [("display", vbool true)])
    with (plain (map (fun kv => (fst kv, VP (snd kv))) [("display", PBool true)])) in Hl.
  destruct (config_plain_prims _ _ _ Hl) as [Hw Hcf].
  set (e := TObj [("options", TObj [("title", TLeaf (VRef (List.length (h0 ++ [plain []]))))])] : lit).
  set (fs := [("display", TLeaf (PBool true))] : fields json).
  assert (He : lit_ok (List.length h) h e = true) by (simpl; now rewrite Hw).
  assert (Hn : tsubst (config h) e = nest ["options"; "title"] (TObj fs)) by (simpl; now rewrite Hcf).
  assert (Hnd : NoDup (map fst fs)) by (repeat constructor; simpl; intuition discriminate).
  exists (fst (merge_lit h chart e)), (snd (merge_lit h chart e)). split.
  { rewrite apply_hooks_single. cbn [run_hook]. now rewrite <- surjective_pairing. }
  rewrite (config_merge_lit_wf h chart e Hc He), Hn.
  destruct (merge_nest_obj_keys (config h chart) ["options"; "title"] fs Hnd) as [Hk Ho].
  split; [apply (Hk "display"); reflexivity|].
  split.
  - intros k q Hd. apply (Ho k q). simpl. apply String.eqb_neq in Hd. now rewrite Hd.
  - intros q Hq. now apply merge_nest_other.
Qed.

Lemma title_default_displays_witness :
  let h := ds_heap 1 ++ [plain []; plain [("display", vbool true)]] in
  ext (ds_heap 1 ++ [plain []; plain [("display", vbool true)]]) h /\
  wf (List.length h) h (ds_chart 1) = true /\
  reg_title undef (ds_heap 1, []) =
    (ds_heap 1 ++ [plain []; plain [("display", vbool true)]], [HTitle (VRef 5)]) /\
  exists h' r,
    apply_hooks (snd (reg_title undef (ds_heap 1, []))) h (ds_chart 1) = Some (h', r) /\
    tpath ["options"; "title"; "display"] (config h' r) = Some (TLeaf (PBool true)) /\
    (forall k q, k <> "display" ->
       tpath ("options" :: "title" :: k :: q) (config h' r) =
         tpath ("options" :: "title" :: k :: q) (config h (ds_chart 1))) /\
    (forall q, diverges ["options"; "title"] q = true ->
       tpath q (config h' r) = tpath q (config h (ds_chart 1))).
Proof.
  intros h. split; [apply ext_refl|]. split; [vm_compute; reflexivity|].
  apply (title_default_displays (ds_heap 1) h (ds_chart 1));
    [apply ext_refl | vm_compute; reflexivity].
Defined.
